(** * Structured: a verification development for
      [formulaic/parser/types/structured.py]

    The Python class [Structured] layers keyed structure over arbitrary
    payloads.  This file embeds the class in Rocq: Python objects are a
    datatype [value]; a Python [dict] is an association list in insertion
    order with unique keys; a raised exception is the [Raise] branch of
    [result]; mutation of [self] is explicit state passing. *)

From Stdlib Require Import List String Ascii ZArith Bool Lia Relations.
From Stdlib Require Import Permutation DecimalString.
Import ListNotations.
Open Scope string_scope.
Open Scope list_scope.


Set Warnings "-register-all".

#[global] Arguments String.eqb : simpl never.

(** ** Exceptions and the error monad *)

(** The exception classes the module raises or lets through.  The class
    raises [ValueError] (constructor) and [KeyError] (bracket write) for a
    slot name it refuses, [AttributeError] for an attribute that is neither
    a slot nor mapped, [KeyError] for a key that is not found, and
    [RuntimeError] for [_simplify(inplace=True, unwrap=True)];
    [TypeError] and [IndexError] come from calls and built-in indexing. *)
Inductive exn : Type :=
| ValueError
| KeyError
| AttributeError
| RuntimeError
| TypeError
| IndexError.

Inductive result (A : Type) : Type :=
| Ok (a : A)
| Raise (e : exn).
Arguments Ok {A} a.
Arguments Raise {A} e.

Definition bind {A B} (m : result A) (k : A -> result B) : result B :=
  match m with
  | Ok a => k a
  | Raise e => Raise e
  end.

Notation "x <- m ;; k" := (bind m (fun x => k))
  (at level 61, m at next level, right associativity).

Definition fmap {A B} (f : A -> B) (m : result A) : result B :=
  x <- m ;; Ok (f x).

(** [tuple(func(o) for o in obj)]: left to right, the first exception ends
    the traversal. *)
Definition mapM {A B} (f : A -> result B) : list A -> result (list B) :=
  fix go (l : list A) : result (list B) :=
    match l with
    | [] => Ok []
    | x :: t => y <- f x ;; ys <- go t ;; Ok (y :: ys)
    end.

(** ** Python dictionaries

    Insertion-ordered, keys unique.  Assigning to a key that is present
    keeps its position; a new key goes last. *)
Module Dict.
Section Ops.
Context {V : Type}.

Fixpoint get (k : string) (d : list (string * V)) : option V :=
  match d with
  | [] => None
  | (k', v) :: rest => if String.eqb k' k then Some v else get k rest
  end.

(** [k in d] *)
Definition contains (k : string) (d : list (string * V)) : bool :=
  match get k d with Some _ => true | None => false end.

(** [d[k] = v] *)
Fixpoint set (k : string) (v : V) (d : list (string * V)) : list (string * V) :=
  match d with
  | [] => [(k, v)]
  | (k', v') :: rest =>
      if String.eqb k' k then (k', v) :: rest else (k', v') :: set k v rest
  end.

(** [{**d, **e}] *)
Definition update (d e : list (string * V)) : list (string * V) :=
  fold_left (fun acc kv => set (fst kv) (snd kv) acc) e d.

Definition remove (k : string) (d : list (string * V)) : list (string * V) :=
  filter (fun kv => negb (String.eqb (fst kv) k)) d.

Definition keys (d : list (string * V)) : list string := map fst d.
End Ops.

(** [{key: f(value) for key, value in d.items()}] for a total [f]. *)
Definition map_values {V W} (f : V -> W) : list (string * V) -> list (string * W) :=
  fix go (d : list (string * V)) : list (string * W) :=
    match d with
    | [] => []
    | (k, v) :: rest => (k, f v) :: go rest
    end.

(** The same comprehension when [f] may raise. *)
Definition traverse {V W} (f : V -> result W)
  : list (string * V) -> result (list (string * W)) :=
  fix go (d : list (string * V)) : result (list (string * W)) :=
    match d with
    | [] => Ok []
    | (k, v) :: rest => w <- f v ;; ws <- go rest ;; Ok ((k, w) :: ws)
    end.

(** [f(d[k])] when [k in d]. *)
Definition get_with {V W} (f : V -> W) (k : string)
  : list (string * V) -> option W :=
  fix go (d : list (string * V)) : option W :=
    match d with
    | [] => None
    | (k', v) :: rest => if String.eqb k' k then Some (f v) else go rest
    end.

(** [d == e] on dictionaries, given [==] on the values: same number of
    keys, and every key of [d] is in [e] with an equal value. *)
Definition eqb_with {V W} (eqv : V -> W -> bool) (d : list (string * V))
  (e : list (string * W)) : bool :=
  Nat.eqb (List.length d) (List.length e)
  && (fix go (d : list (string * V)) : bool :=
        match d with
        | [] => true
        | (k, v) :: rest =>
            match get k e with
            | Some w => eqv v w
            | None => false
            end && go rest
        end) d.
End Dict.

(** ** Strings *)

(** [key.startswith("_")] *)
Definition startswith_underscore (key : string) : bool :=
  match key with
  | String c _ => Ascii.eqb c "_"%char
  | EmptyString => false
  end.

Definition is_alpha (c : ascii) : bool :=
  let n := nat_of_ascii c in
  ((65 <=? n) && (n <=? 90) || (97 <=? n) && (n <=? 122))%nat.

Definition is_digit (c : ascii) : bool :=
  let n := nat_of_ascii c in ((48 <=? n) && (n <=? 57))%nat.

Definition id_start (c : ascii) : bool := is_alpha c || Ascii.eqb c "_"%char.
Definition id_continue (c : ascii) : bool := id_start c || is_digit c.

Fixpoint all_chars (p : ascii -> bool) (s : string) : bool :=
  match s with
  | EmptyString => true
  | String c rest => p c && all_chars p rest
  end.

(** [str.isidentifier] on a key made of ASCII characters only: a letter or
    underscore, then letters, digits and underscores.  On other keys the
    method consults the Unicode tables; [__setitem__] takes the method as
    a parameter, and this function is its value on ASCII keys. *)
Definition ascii_isidentifier (key : string) : bool :=
  match key with
  | EmptyString => false
  | String c rest => id_start c && all_chars id_continue rest
  end.

(** ** Python objects *)

(** The three slots of a [Structured] instance, over the type of the
    objects it stores. *)
Record Structured_ (V : Type) : Type := mkStructured {
  _structure : list (string * V);
  _mapped_attrs : list V;
  _metadata : V
}.
Arguments mkStructured {V} _ _ _.
Arguments _structure {V} _.
Arguments _mapped_attrs {V} _.
Arguments _metadata {V} _.

Inductive value : Type :=
| VNone
| VInt (z : Z)
| VStr (s : string)
| VTuple (items : list value)
| VList (items : list value)
| VSet (items : list value)
| VDict (items : list (string * value))
| VStructured (s : Structured_ value).

Definition Structured : Type := Structured_ value.

Section ValueInd.
Variable P : value -> Prop.
Hypothesis HNone : P VNone.
Hypothesis HInt : forall z, P (VInt z).
Hypothesis HStr : forall s, P (VStr s).
Hypothesis HTuple : forall l, Forall P l -> P (VTuple l).
Hypothesis HList : forall l, Forall P l -> P (VList l).
Hypothesis HSet : forall l, Forall P l -> P (VSet l).
Hypothesis HDict : forall d, Forall (fun kv => P (snd kv)) d -> P (VDict d).
Hypothesis HStructured : forall s,
  Forall (fun kv => P (snd kv)) (_structure s) ->
  Forall P (_mapped_attrs s) -> P (_metadata s) -> P (VStructured s).

Fixpoint value_nested_ind (v : value) : P v :=
  let all :=
    fix all (l : list value) : Forall P l :=
      match l with
      | [] => Forall_nil P
      | x :: t => Forall_cons x (value_nested_ind x) (all t)
      end in
  let all_snd :=
    fix all_snd (d : list (string * value))
      : Forall (fun kv => P (snd kv)) d :=
      match d with
      | [] => Forall_nil _
      | kv :: t =>
          Forall_cons (P := fun kv => P (snd kv)) kv
            (value_nested_ind (snd kv)) (all_snd t)
      end in
  match v with
  | VNone => HNone
  | VInt z => HInt z
  | VStr s => HStr s
  | VTuple l => HTuple l (all l)
  | VList l => HList l (all l)
  | VSet l => HSet l (all l)
  | VDict d => HDict d (all_snd d)
  | VStructured s =>
      HStructured s (all_snd (_structure s)) (all (_mapped_attrs s))
        (value_nested_ind (_metadata s))
  end.
End ValueInd.

(** [isinstance(obj, Structured)], [isinstance(obj, tuple)] and
    [isinstance(obj, Sequence)]. *)
Definition isinstance_Structured (obj : value) : bool :=
  match obj with VStructured _ => true | _ => false end.

Definition isinstance_tuple (obj : value) : bool :=
  match obj with VTuple _ => true | _ => false end.

Definition isinstance_Sequence (obj : value) : bool :=
  match obj with VTuple _ | VList _ | VStr _ => true | _ => false end.

(** The one-character strings of a string, as iterating it yields them. *)
Fixpoint chars (s : string) : list value :=
  match s with
  | EmptyString => []
  | String c rest => VStr (String c EmptyString) :: chars rest
  end.

Definition all2 {A B} (eqv : A -> B -> bool) : list A -> list B -> bool :=
  fix go (l : list A) (m : list B) : bool :=
    match l, m with
    | [], [] => true
    | x :: l', y :: m' => eqv x y && go l' m'
    | _, _ => false
    end.

Definition subset_with {A B} (eqv : A -> B -> bool) (m : list B) : list A -> bool :=
  fix go (l : list A) : bool :=
    match l with
    | [] => true
    | x :: l' => existsb (eqv x) m && go l'
    end.

Definition covers_with {A B} (eqv : A -> B -> bool) (l : list A) (m : list B) : bool :=
  forallb (fun y =>
    (fix go (l : list A) : bool :=
       match l with
       | [] => false
       | x :: l' => eqv x y || go l'
       end) l) m.

(** Python's [a == b].  Tuples and lists compare element by element,
    sets by mutual inclusion, dictionaries key by key whatever the order;
    [Structured.__eq__] compares the two [_structure] dictionaries and is
    [False] against anything that is not a [Structured]. *)
Fixpoint py_eq (a b : value) {struct a} : bool :=
  match a, b with
  | VNone, VNone => true
  | VInt x, VInt y => Z.eqb x y
  | VStr x, VStr y => String.eqb x y
  | VTuple l, VTuple m => all2 py_eq l m
  | VList l, VList m => all2 py_eq l m
  | VSet l, VSet m => subset_with py_eq m l && covers_with py_eq l m
  | VDict d, VDict e => Dict.eqb_with py_eq d e
  | VStructured s, VStructured t =>
      Dict.eqb_with py_eq (_structure s) (_structure t)
  | _, _ => false
  end.

(** ** Built-in operations the class relies on *)

(** [bool(obj)]; a [Structured] has [__len__] and no [__bool__]. *)
Definition truthy (obj : value) : bool :=
  match obj with
  | VNone => false
  | VInt z => negb (Z.eqb z 0)
  | VStr s => negb (String.eqb s "")
  | VTuple l | VList l | VSet l => negb (Nat.eqb (List.length l) 0)
  | VDict d => negb (Nat.eqb (List.length d) 0)
  | VStructured s => negb (Nat.eqb (List.length (_structure s)) 0)
  end.

(** Whether [hash(obj)] succeeds.  [Structured] defines [__eq__] and no
    [__hash__], so its instances are unhashable. *)
Fixpoint hashable (obj : value) : bool :=
  match obj with
  | VNone | VInt _ | VStr _ => true
  | VTuple l => forallb hashable l
  | VList _ | VSet _ | VDict _ | VStructured _ => false
  end.

(** [seq[i]] for an integer index, negative indices counting from the end. *)
Definition seq_getitem (l : list value) (i : Z) : result value :=
  let n := Z.of_nat (List.length l) in
  let j := if (i <? 0)%Z then (i + n)%Z else i in
  if (j <? 0)%Z then Raise IndexError
  else match nth_error l (Z.to_nat j) with
       | Some x => Ok x
       | None => Raise IndexError
       end.

(** ** The class *)

(** [_MISSING] as the default of a parameter is [None : option value]. *)

Definition _prepare_item (key : string) (item : value) : value := item.

(** [_has_root]: ["root" in self._structure]. *)
Definition _has_root (self : Structured) : bool :=
  Dict.contains "root" (_structure self).

(** [set(keys) == {"root"}] *)
Definition is_root_singleton (keys : list string) : bool :=
  match keys with
  | [] => false
  | _ => forallb (String.eqb "root") keys
  end.

(** [_has_structure]: [set(self._structure) != {"root"}]. *)
Definition _has_structure (self : Structured) : bool :=
  negb (is_root_singleton (Dict.keys (_structure self))).

(** [__len__] *)
Definition __len__ (self : Structured) : nat := List.length (_structure self).

(** [__eq__] *)
Definition __eq__ (self : Structured) (other : value) : bool :=
  match other with
  | VStructured o => Dict.eqb_with py_eq (_structure self) (_structure o)
  | _ => false
  end.

(** The values of the slots other than root, in insertion order: the final
    loop of [__iter__]. *)
Fixpoint non_root_values (d : list (string * value)) : list value :=
  match d with
  | [] => []
  | (key, v) :: rest =>
      if negb (String.eqb key "root") then v :: non_root_values rest
      else non_root_values rest
  end.

(** What [yield from obj] yields for a [Sequence]. *)
Definition sequence_items (obj : value) : list value :=
  match obj with
  | VTuple l | VList l => l
  | VStr s => chars s
  | _ => []
  end.

(** [__iter__], as the list of the items the generator yields.
    [self.root] is the stored root wherever [_has_root] holds. *)
Definition __iter__ (self : Structured) : list value :=
  match Dict.get "root" (_structure self) with
  | Some root =>
      (if negb (_has_structure self) && isinstance_Sequence root
       then sequence_items root
       else [root])
      ++ non_root_values (_structure self)
  | None => non_root_values (_structure self)
  end.

(** [iter(obj)] run to its end. *)
Definition iterate (obj : value) : result (list value) :=
  match obj with
  | VTuple l | VList l | VSet l => Ok l
  | VStr s => Ok (chars s)
  | VDict d => Ok (map VStr (Dict.keys d))
  | VStructured s => Ok (__iter__ s)
  | VNone | VInt _ => Raise TypeError
  end.

(** [set(obj or ())] *)
Definition set_or_empty (obj : value) : result (list value) :=
  if truthy obj then
    match obj with
    | VSet items => Ok items
    | _ =>
        items <- iterate obj ;;
        if forallb hashable items then Ok items else Raise TypeError
    end
  else Ok [].

(** The body of [__init__], once Python has bound the arguments of the
    call: [root] is [None] for [_MISSING], [structure] holds the keyword
    arguments that name no parameter. *)
Definition __init__ (root : option value) (mapped_attrs : value)
  (metadata : value) (structure : list (string * value)) : result Structured :=
  if existsb startswith_underscore (Dict.keys structure) then Raise ValueError
  else
    let structure :=
      match root with
      | Some r => Dict.set "root" (_prepare_item "root" r) structure
      | None => structure
      end in
    attrs <- set_or_empty mapped_attrs ;;
    Ok (mkStructured
          (map (fun kv => (fst kv, _prepare_item (fst kv) (snd kv))) structure)
          attrs metadata).

(** The call [cls( **kwargs )]: a key that names a parameter of [__init__]
    is bound to it ([self] is already taken by the instance, so that key is
    a [TypeError]); the other keys make up [structure]. *)
Definition new_Structured (kwargs : list (string * value)) : result Structured :=
  if Dict.contains "self" kwargs then Raise TypeError
  else
    __init__ (Dict.get "root" kwargs)
      (match Dict.get "_mapped_attrs" kwargs with Some a => a | None => VNone end)
      (match Dict.get "_metadata" kwargs with Some m => m | None => VNone end)
      (Dict.remove "_metadata"
         (Dict.remove "_mapped_attrs" (Dict.remove "root" kwargs))).

(** [_map]: [apply_func] is the closure of the source, [recurse] the flag
    it captures; the nested call [obj._map(func, recurse=True)] is the
    comprehension over the nested slots followed by the constructor. *)
Fixpoint apply_func (func : value -> result value) (recurse : bool)
  (obj : value) {struct obj} : result value :=
  match obj with
  | VStructured s =>
      if recurse then
        kwargs <- Dict.traverse (apply_func func true) (_structure s) ;;
        fmap VStructured (new_Structured kwargs)
      else func obj
  | VTuple l => fmap VTuple (mapM func l)
  | _ => func obj
  end.

Definition _map (self : Structured) (func : value -> result value)
  (recurse : bool) : result Structured :=
  kwargs <- Dict.traverse (apply_func func recurse) (_structure self) ;;
  new_Structured kwargs.

(** [_to_dict] with its closure [do_recursion]. *)
Fixpoint do_recursion (recurse : bool) (obj : value) {struct obj} : value :=
  match obj with
  | VStructured s =>
      if recurse then VDict (Dict.map_values (do_recursion true) (_structure s))
      else obj
  | _ => obj
  end.

Definition _to_dict (self : Structured) (recurse : bool) : list (string * value) :=
  Dict.map_values (do_recursion recurse) (_structure self).

(** [self._structure = structure] *)
Definition set_structure (self : Structured) (structure : list (string * value))
  : Structured :=
  mkStructured structure (_mapped_attrs self) (_metadata self).

(** The call [self.__class__(_mapped_attrs=self._mapped_attrs,
    _metadata=self._metadata, **structure)] that ends [_simplify]: a key of
    [structure] that repeats one of the two explicit keywords is a
    [TypeError]. *)
Definition new_like (self : Structured) (structure : list (string * value))
  : result Structured :=
  if Dict.contains "_mapped_attrs" structure || Dict.contains "_metadata" structure
  then Raise TypeError
  else new_Structured (("_mapped_attrs", VSet (_mapped_attrs self))
                         :: ("_metadata", _metadata self) :: structure).

(** [isinstance(structured.root, Structured)], under [_has_root]. *)
Definition root_is_Structured (self : Structured) : bool :=
  match Dict.get "root" (_structure self) with
  | Some root => isinstance_Structured root
  | None => false
  end.

(** The guard of the [while] loop of [_simplify] on a [Structured]. *)
Definition simplify_guard (unwrap : bool) (structured : Structured) : bool :=
  _has_root structured && negb (_has_structure structured)
  && (unwrap || root_is_Structured structured).

(** [_simplify] after its first check, with [structured] the loop variable:
    one unfolding is one test of the [while] guard.  The outcome comes with
    the state of [self] after the call.  A nested [value._simplify(recurse=True)]
    runs with the defaults [unwrap=True], [inplace=False]. *)
Fixpoint simplify_from (recurse unwrap inplace : bool) (self : Structured)
  (structured : value) {struct structured} : result value * Structured :=
  match structured with
  | VStructured cur =>
      if simplify_guard unwrap cur then
        (* structured = structured.root *)
        match Dict.get_with (simplify_from recurse unwrap inplace self) "root"
                (_structure cur) with
        | Some out => out
        | None => (Raise AttributeError, self)
        end
      else
        let simplified :=
          if recurse then
            Dict.traverse
              (fun v =>
                 match v with
                 | VStructured nested => fst (simplify_from true true false nested v)
                 | _ => Ok v
                 end)
              (_structure cur)
          else Ok (_structure cur) in
        match simplified with
        | Raise e => (Raise e, self)
        | Ok structure =>
            if inplace then
              let self' := set_structure self structure in
              (Ok (VStructured self'), self')
            else (fmap VStructured (new_like self structure), self)
        end
  | _ => (Ok structured, self)
  end.

Definition _simplify (self : Structured) (recurse unwrap inplace : bool)
  : result value * Structured :=
  if inplace && unwrap then (Raise RuntimeError, self)
  else simplify_from recurse unwrap inplace self (VStructured self).

(** The loop of [_simplify] alone: the value [structured] holds when the
    guard fails. *)
Fixpoint simplify_walk (unwrap : bool) (structured : value) {struct structured}
  : value :=
  match structured with
  | VStructured cur =>
      if simplify_guard unwrap cur then
        match Dict.get_with (simplify_walk unwrap) "root" (_structure cur) with
        | Some v => v
        | None => structured
        end
      else structured
  | _ => structured
  end.

(** [_update], on the arguments as Python binds them: [root] apart,
    [structure] the remaining keywords. *)
Definition _update (self : Structured) (root : option value)
  (structure : list (string * value)) : result Structured :=
  let structure :=
    match root with
    | Some r => Dict.set "root" r structure
    | None => structure
    end in
  new_Structured
    (Dict.update
       (Dict.update [("_mapped_attrs", VSet (_mapped_attrs self));
                     ("_metadata", _metadata self)]
          (_structure self))
       (map (fun kv => (fst kv, _prepare_item (fst kv) (snd kv))) structure)).

(** [__getattr__]; the built-in [getattr] is a parameter. *)
Section GetAttr.
Variable getattr : value -> string -> result value.

Definition __getattr__ (self : Structured) (attr : string) : result value :=
  if startswith_underscore attr then Raise AttributeError
  else
    match Dict.get attr (_structure self) with
    | Some v => Ok v
    | None =>
        if existsb (fun a => py_eq a (VStr attr)) (_mapped_attrs self)
        then fmap VStructured (_map self (fun x => getattr x attr) true)
        else Raise AttributeError
    end.
End GetAttr.

(** [obj[key]].  On a [Structured] this is [__getitem__]; its first branch
    indexes the root, which may be a [Structured] again. *)
Fixpoint py_getitem (obj key : value) {struct obj} : result value :=
  match obj with
  | VStructured self =>
      if _has_root self && negb (_has_structure self) then
        match Dict.get_with (fun root => py_getitem root key) "root"
                (_structure self) with
        | Some out => out
        | None => Raise AttributeError
        end
      else if (py_eq VNone key || py_eq (VStr "root") key) && _has_root self then
        match Dict.get "root" (_structure self) with
        | Some root => Ok root
        | None => Raise AttributeError
        end
      else
        match key with
        | VStr k =>
            if negb (startswith_underscore k) then
              match Dict.get k (_structure self) with
              | Some v => Ok v
              | None => Raise KeyError
              end
            else Raise KeyError
        | _ => Raise KeyError
        end
  | VTuple l | VList l =>
      match key with
      | VInt i => seq_getitem l i
      | _ => Raise TypeError
      end
  | VStr s =>
      match key with
      | VInt i => seq_getitem (chars s) i
      | _ => Raise TypeError
      end
  | VDict d =>
      if hashable key then
        match key with
        | VStr k =>
            match Dict.get k d with
            | Some v => Ok v
            | None => Raise KeyError
            end
        | _ => Raise KeyError
        end
      else Raise TypeError
  | VNone | VInt _ | VSet _ => Raise TypeError
  end.

Definition __getitem__ (self : Structured) (key : value) : result value :=
  py_getitem (VStructured self) key.

(** [__setitem__]: the state of [self] after the assignment, or the
    exception raised before any assignment.  [isidentifier] is the
    built-in [str.isidentifier]. *)
Section SetItem.
Variable isidentifier : string -> bool.

Definition __setitem__ (self : Structured) (key value_ : value)
  : result Structured :=
  match key with
  | VStr k =>
      if negb (isidentifier k) then Raise KeyError
      else if startswith_underscore k then Raise KeyError
      else Ok (set_structure self
                 (Dict.set k (_prepare_item k value_) (_structure self)))
  | _ => Raise KeyError
  end.
End SetItem.

(** ** Well-formed containers *)

(** A slot name that a call can pass as a keyword to [__init__] and that
    [__init__] stores: no leading underscore, and not [self]. *)
Definition keyword_name (k : string) : bool :=
  negb (startswith_underscore k) && negb (String.eqb k "self").

(** Every [Structured] reached through slots has such slot names. *)
Fixpoint constructible (v : value) {struct v} : bool :=
  match v with
  | VStructured s =>
      forallb keyword_name (Dict.keys (_structure s))
      && (fix go (d : list (string * value)) : bool :=
            match d with
            | [] => true
            | (_, x) :: rest => constructible x && go rest
            end) (_structure s)
  | _ => true
  end.

(** How the constructor lays out a keyword dictionary: the root, bound to
    the parameter [root], is assigned after the other keys. *)
Definition root_last (d : list (string * value)) : list (string * value) :=
  Dict.remove "root" d
  ++ match Dict.get "root" d with
     | Some r => [("root", r)]
     | None => []
     end.

(** ** Reference notions for the properties *)

(** One turn of the loop of [_simplify], in the words of its guard: the
    current value is a [Structured] that has a root and no other structure,
    and [unwrap] is set or the root is a [Structured]; the root replaces it. *)
Inductive unwrap_step (unwrap : bool) : value -> value -> Prop :=
| unwrap_root (cur : Structured) (root : value) :
    _has_root cur = true ->
    _has_structure cur = false ->
    unwrap = true \/ isinstance_Structured root = true ->
    Dict.get "root" (_structure cur) = Some root ->
    unwrap_step unwrap (VStructured cur) root.

(** The replacement slots of [_update] once [root] has joined them. *)
Definition replacements (root : option value) (structure : list (string * value))
  : list (string * value) :=
  match root with
  | Some r => Dict.set "root" r structure
  | None => structure
  end.

(** What [_map(func)] computes when [func] is total and raises nothing:
    [func] on every leaf and on every element of a tuple, nested
    containers rebuilt by the constructor. *)
Fixpoint map_leaves (f : value -> value) (v : value) {struct v} : value :=
  match v with
  | VStructured s =>
      VStructured
        (mkStructured (root_last (Dict.map_values (map_leaves f) (_structure s)))
           [] VNone)
  | VTuple l => VTuple (map f l)
  | _ => f v
  end.

(** The projection of attribute [attr] that a mapped attribute returns:
    a leaf becomes the attribute looked up on it, a tuple the tuple of the
    attributes of its elements, a nested container a new container with
    the same slot names, each slot projected in turn. *)
Inductive projected (getattr : value -> string -> result value) (attr : string)
  : value -> value -> Prop :=
| projected_leaf x y :
    isinstance_Structured x = false -> isinstance_tuple x = false ->
    getattr x attr = Ok y ->
    projected getattr attr x y
| projected_group l l' :
    Forall2 (fun x y => getattr x attr = Ok y) l l' ->
    projected getattr attr (VTuple l) (VTuple l')
| projected_nested (s : Structured) slots :
    Forall2 (fun kv kv' => fst kv = fst kv'
                           /\ projected getattr attr (snd kv) (snd kv'))
      (_structure s) slots ->
    projected getattr attr (VStructured s)
      (VStructured (mkStructured (root_last slots) [] VNone)).

(** The attributes of Python integers that are integers again. *)
Definition int_getattr (x : value) (attr : string) : result value :=
  match x with
  | VInt z =>
      if String.eqb attr "real" then Ok (VInt z)
      else if String.eqb attr "imag" then Ok (VInt 0)
      else Raise AttributeError
  | _ => Raise AttributeError
  end.

(** ** The remaining methods *)

(** [__setattr__]: a name with a leading underscore goes to
    [object.__setattr__] through [super()], which is a parameter; any
    other name is a slot. *)
Section SetAttr.
Variable object_setattr : Structured -> string -> value -> result Structured.

Definition __setattr__ (self : Structured) (attr : string) (value_ : value)
  : result Structured :=
  if startswith_underscore attr then object_setattr self attr value_
  else Ok (set_structure self
             (Dict.set attr (_prepare_item attr value_) (_structure self))).
End SetAttr.

(** [__dir__]: the names [super().__dir__()] lists, a parameter, followed
    by the slot names. *)
Definition __dir__ (super_dir : list string) (self : Structured) : list string :=
  super_dir ++ Dict.keys (_structure self).

(** The line feed, and [f"{i}"] for an index. *)
Definition newline : string := String (ascii_of_nat 10) EmptyString.

Definition decimal (i : nat) : string := NilZero.string_of_uint (Nat.to_uint i).

(** [__repr__] and [__str__].  [to_str] is [repr] or [str] on the stored
    objects, and [indent] is [textwrap.indent(text, prefix)]; both are
    parameters. *)
Section Repr.
Variable indent : string -> string -> string.

(** [keys]: the names other than root, then [keys.insert(0, "root")]. *)
Definition repr_keys (self : Structured) : list string :=
  let d := _to_dict self false in
  let keys := filter (fun key => negb (String.eqb key "root")) (Dict.keys d) in
  if _has_root self then "root" :: keys else keys.

(** The lines one element of a tuple adds to [out], [i] its index. *)
Definition repr_item (to_str : value -> string) (i : nat) (obj : value)
  : list string :=
  [ "    [" ++ decimal i ++ "]:" ; indent (to_str obj) "        " ]%string.

Fixpoint repr_items (to_str : value -> string) (i : nat) (objs : list value)
  : list string :=
  match objs with
  | [] => []
  | obj :: rest => repr_item to_str i obj ++ repr_items to_str (S i) rest
  end.

(** What one turn of the loop over [keys] appends to [out]; [d[key]] is a
    [KeyError] for a key that [d] lacks. *)
Definition repr_block (to_str : value -> string) (d : list (string * value))
  (key : string) : result (list string) :=
  let label := if String.eqb key "root" then "root:"
               else ("." ++ key ++ ":")%string in
  match Dict.get key d with
  | None => Raise KeyError
  | Some (VTuple objs) => Ok (label :: repr_items to_str 0 objs)
  | Some value_ => Ok [label; indent (to_str value_) "    "]
  end.

Definition repr_lines (to_str : value -> string) (self : Structured)
  : result (list string) :=
  fmap (@List.concat string)
    (mapM (repr_block to_str (_to_dict self false)) (repr_keys self)).

Definition __repr__ (to_str : value -> string) (self : Structured)
  : result string :=
  fmap (String.concat newline) (repr_lines to_str self).

(** [__str__] is [self.__repr__(to_str=str)]. *)
Definition __str__ (py_str : value -> string) (self : Structured)
  : result string :=
  __repr__ py_str self.
End Repr.

(** ** Well-keyed values *)

Fixpoint nodupb (l : list string) : bool :=
  match l with
  | [] => true
  | k :: rest => negb (existsb (String.eqb k) rest) && nodupb rest
  end.

(** Every dictionary inside the value, slot dictionaries included, has
    each key once, as a Python [dict] has. *)
Fixpoint well_keyed (v : value) {struct v} : bool :=
  let slots :=
    fix go (d : list (string * value)) : bool :=
      match d with
      | [] => true
      | (_, x) :: rest => well_keyed x && go rest
      end in
  match v with
  | VNone | VInt _ | VStr _ => true
  | VTuple l | VList l | VSet l => forallb well_keyed l
  | VDict d => nodupb (Dict.keys d) && slots d
  | VStructured s => nodupb (Dict.keys (_structure s)) && slots (_structure s)
  end.

(** Nothing left for [_simplify] to do: neither the value nor anything in
    its slots, at any depth, is a container with a root and no other
    structure. *)
Fixpoint simplified (v : value) {struct v} : bool :=
  match v with
  | VStructured s =>
      negb (_has_root s && negb (_has_structure s))
      && (fix go (d : list (string * value)) : bool :=
            match d with
            | [] => true
            | (_, x) :: rest => simplified x && go rest
            end) (_structure s)
  | _ => true
  end.

(** No tuple stored in a slot, at any depth of nesting, has a container
    among its elements. *)
Fixpoint flat_groups (v : value) {struct v} : bool :=
  match v with
  | VStructured s =>
      (fix go (d : list (string * value)) : bool :=
         match d with
         | [] => true
         | (_, x) :: rest => flat_groups x && go rest
         end) (_structure s)
  | VTuple l => forallb (fun x => negb (isinstance_Structured x)) l
  | _ => true
  end.

(** * Properties *)

(** ** The examples of the docstring

    [s = Structured((1, 2), b=3, c=(4, 5))]. *)

Example docstring_list :
  fmap __iter__
    (__init__ (Some (VTuple [VInt 1; VInt 2])) VNone VNone
       [("b", VInt 3); ("c", VTuple [VInt 4; VInt 5])])
  = Ok [VTuple [VInt 1; VInt 2]; VInt 3; VTuple [VInt 4; VInt 5]].
Proof. reflexivity. Qed.

Example docstring_map :
  (s <- __init__ (Some (VTuple [VInt 1; VInt 2])) VNone VNone
          [("b", VInt 3); ("c", VTuple [VInt 4; VInt 5])] ;;
   m <- _map s (fun x => match x with
                         | VInt z => Ok (VInt (z + 1))
                         | _ => Raise TypeError
                         end) true ;;
   Ok (__iter__ m))
  = Ok [VTuple [VInt 2; VInt 3]; VInt 4; VTuple [VInt 5; VInt 6]].
Proof. reflexivity. Qed.

Example slot_named_self_cannot_be_rebuilt :
  (s <- __setitem__ ascii_isidentifier (mkStructured [("a", VInt 1)] [] VNone)
          (VStr "self") (VInt 2) ;;
   _update s None [])
  = Raise TypeError.
Proof. reflexivity. Qed.

(** ** Dictionaries *)

Lemma get_with_get {V W} (f : V -> W) k (d : list (string * V)) :
  Dict.get_with f k d = option_map f (Dict.get k d).
Proof.
  induction d as [|[k' v] rest IH]; simpl; [reflexivity|].
  destruct (String.eqb k' k); [reflexivity | exact IH].
Qed.

Lemma contains_get {V} k (d : list (string * V)) :
  Dict.contains k d = true <-> exists v, Dict.get k d = Some v.
Proof.
  unfold Dict.contains. destruct (Dict.get k d) as [v|].
  - split; [eauto | reflexivity].
  - split; [discriminate | intros [v H]; discriminate].
Qed.

Lemma get_in_keys {V} k (d : list (string * V)) v :
  Dict.get k d = Some v -> In k (Dict.keys d).
Proof.
  induction d as [|[k' v'] rest IH]; simpl; [discriminate|].
  destruct (String.eqb_spec k' k) as [->|Hne]; [now left | right; auto].
Qed.

Lemma get_none_not_in {V} k (d : list (string * V)) :
  Dict.get k d = None <-> ~ In k (Dict.keys d).
Proof.
  induction d as [|[k' v'] rest IH]; simpl.
  - split; [intros _ [] | reflexivity].
  - destruct (String.eqb_spec k' k) as [->|Hne].
    + split; [discriminate | intros H; exfalso; apply H; now left].
    + rewrite IH. split; [intros H [E|I]; [congruence | auto] | intros H I; apply H; now right].
Qed.

Lemma get_app {V} k (d e : list (string * V)) :
  Dict.get k (d ++ e) =
  match Dict.get k d with Some v => Some v | None => Dict.get k e end.
Proof.
  induction d as [|[k' v'] rest IH]; simpl; [reflexivity|].
  destruct (String.eqb k' k); [reflexivity | exact IH].
Qed.

Lemma get_remove_same {V} k (d : list (string * V)) :
  Dict.get k (Dict.remove k d) = None.
Proof.
  induction d as [|[k' v'] rest IH]; simpl; [reflexivity|].
  destruct (String.eqb k' k) eqn:E; simpl; [exact IH | now rewrite E].
Qed.

Lemma get_remove_other {V} k k' (d : list (string * V)) :
  k <> k' -> Dict.get k (Dict.remove k' d) = Dict.get k d.
Proof.
  intros Hne. induction d as [|[k0 v0] rest IH]; simpl; [reflexivity|].
  destruct (String.eqb_spec k0 k') as [->|Hne']; simpl.
  - destruct (String.eqb_spec k' k) as [->|_]; [congruence | exact IH].
  - destruct (String.eqb k0 k); [reflexivity | exact IH].
Qed.

Lemma remove_absent {V} k (d : list (string * V)) :
  ~ In k (Dict.keys d) -> Dict.remove k d = d.
Proof.
  induction d as [|[k' v'] rest IH]; simpl; intros H; [reflexivity|].
  destruct (String.eqb_spec k' k) as [->|Hne].
  - exfalso. apply H. now left.
  - simpl. f_equal. apply IH. intros I. apply H. now right.
Qed.

Lemma keys_remove_incl {V} k (d : list (string * V)) x :
  In x (Dict.keys (Dict.remove k d)) -> In x (Dict.keys d) /\ x <> k.
Proof.
  induction d as [|[k' v'] rest IH]; simpl; [intros []|].
  destruct (String.eqb_spec k' k) as [->|Hne]; simpl.
  - intros I. destruct (IH I). split; [now right | assumption].
  - intros [<-|I]; [split; [now left | assumption]|].
    destruct (IH I). split; [now right | assumption].
Qed.

Lemma set_absent {V} k (v : V) (d : list (string * V)) :
  ~ In k (Dict.keys d) -> Dict.set k v d = d ++ [(k, v)].
Proof.
  induction d as [|[k' v'] rest IH]; simpl; intros H; [reflexivity|].
  destruct (String.eqb_spec k' k) as [->|Hne].
  - exfalso. apply H. now left.
  - f_equal. apply IH. intros I. apply H. now right.
Qed.

Lemma keys_set {V} k (v : V) (d : list (string * V)) :
  Dict.keys (Dict.set k v d) =
  if Dict.contains k d then Dict.keys d else Dict.keys d ++ [k].
Proof.
  unfold Dict.contains.
  induction d as [|[k' v'] rest IH]; simpl; [reflexivity|].
  destruct (String.eqb_spec k' k) as [->|Hne]; simpl; [reflexivity|].
  rewrite IH. now destruct (Dict.get k rest).
Qed.

Lemma get_set {V} k k' (v : V) (d : list (string * V)) :
  Dict.get k (Dict.set k' v d) = if String.eqb k' k then Some v else Dict.get k d.
Proof.
  induction d as [|[k0 v0] rest IH]; simpl.
  - reflexivity.
  - destruct (String.eqb_spec k0 k') as [->|Hne]; simpl.
    + now destruct (String.eqb k' k).
    + destruct (String.eqb_spec k0 k) as [->|Hne'].
      * destruct (String.eqb_spec k' k); [congruence | reflexivity].
      * exact IH.
Qed.

Lemma map_prepare_id (d : list (string * value)) :
  map (fun kv => (fst kv, _prepare_item (fst kv) (snd kv))) d = d.
Proof.
  induction d as [|[k v] rest IH]; simpl; [reflexivity | now rewrite IH].
Qed.

Lemma keys_map_values {V W} (f : V -> W) (d : list (string * V)) :
  Dict.keys (Dict.map_values f d) = Dict.keys d.
Proof.
  induction d as [|[k v] rest IH]; simpl; [reflexivity | now rewrite IH].
Qed.

Lemma traverse_keys {V W} (f : V -> result W) (d : list (string * V)) d' :
  Dict.traverse f d = Ok d' -> Dict.keys d' = Dict.keys d.
Proof.
  revert d'. induction d as [|[k v] rest IH]; simpl; intros d' H.
  - now inversion H.
  - destruct (f v) as [w|e]; simpl in H; [|discriminate].
    destruct (Dict.traverse f rest) as [ws|e]; simpl in H; [|discriminate].
    inversion H; subst. simpl. f_equal. now apply IH.
Qed.

Lemma traverse_get {V W} (f : V -> result W) (d : list (string * V)) d' k :
  Dict.traverse f d = Ok d' ->
  match Dict.get k d with
  | Some v => exists w, f v = Ok w /\ Dict.get k d' = Some w
  | None => Dict.get k d' = None
  end.
Proof.
  revert d'. induction d as [|[k0 v0] rest IH]; simpl; intros d' H.
  - now inversion H.
  - destruct (f v0) as [w|e] eqn:Ef; simpl in H; [|discriminate].
    destruct (Dict.traverse f rest) as [ws|e]; simpl in H; [|discriminate].
    inversion H; subst. simpl.
    destruct (String.eqb k0 k); [eauto | now apply IH].
Qed.

Lemma traverse_pure {V W} (f : V -> W) (d : list (string * V)) :
  Dict.traverse (fun v => Ok (f v)) d = Ok (Dict.map_values f d).
Proof.
  induction d as [|[k v] rest IH]; simpl; [reflexivity | now rewrite IH].
Qed.

Lemma traverse_ext_in {V W} (f g : V -> result W) (d : list (string * V)) :
  Forall (fun kv => f (snd kv) = g (snd kv)) d ->
  Dict.traverse f d = Dict.traverse g d.
Proof.
  induction 1 as [|[k v] rest Hx _ IH]; simpl; [reflexivity|].
  simpl in Hx. now rewrite Hx, IH.
Qed.

(** ** The constructor on keyword dictionaries *)

Lemma keyword_names_exclude k (d : list (string * value)) :
  forallb keyword_name (Dict.keys d) = true ->
  keyword_name k = false -> ~ In k (Dict.keys d).
Proof.
  intros Hall Hk Hin. rewrite forallb_forall in Hall.
  specialize (Hall k Hin). congruence.
Qed.

Lemma keyword_names_remove k (d : list (string * value)) :
  forallb keyword_name (Dict.keys d) = true ->
  forallb keyword_name (Dict.keys (Dict.remove k d)) = true.
Proof.
  rewrite !forallb_forall. intros Hall x Hx.
  apply Hall. now apply keys_remove_incl in Hx.
Qed.

Lemma keyword_names_no_underscore (d : list (string * value)) :
  forallb keyword_name (Dict.keys d) = true ->
  existsb startswith_underscore (Dict.keys d) = false.
Proof.
  intros Hall. destruct (existsb _ _) eqn:E; [|reflexivity].
  apply existsb_exists in E. destruct E as [x [Hin Hx]].
  rewrite forallb_forall in Hall. specialize (Hall x Hin).
  unfold keyword_name in Hall. rewrite Hx in Hall. discriminate.
Qed.

Lemma set_root_after_remove r (d : list (string * value)) :
  Dict.set "root" r (Dict.remove "root" d) = Dict.remove "root" d ++ [("root", r)].
Proof.
  apply set_absent. intros Hin. apply keys_remove_incl in Hin. now destruct Hin.
Qed.

Lemma contains_false_not_in {V} k (d : list (string * V)) :
  ~ In k (Dict.keys d) -> Dict.contains k d = false.
Proof.
  intros H. unfold Dict.contains.
  apply get_none_not_in in H. now rewrite H.
Qed.

(** On keyword names the constructor cannot fail, and stores [root_last]. *)
Lemma new_Structured_ok (kwargs : list (string * value)) :
  forallb keyword_name (Dict.keys kwargs) = true ->
  new_Structured kwargs = Ok (mkStructured (root_last kwargs) [] VNone).
Proof.
  intros Hall. unfold new_Structured.
  rewrite (contains_false_not_in "self" kwargs)
    by (apply keyword_names_exclude; [assumption | reflexivity]).
  assert (Hma : Dict.get "_mapped_attrs" kwargs = None)
    by (apply get_none_not_in, keyword_names_exclude; [assumption | reflexivity]).
  assert (Hmd : Dict.get "_metadata" kwargs = None)
    by (apply get_none_not_in, keyword_names_exclude; [assumption | reflexivity]).
  rewrite Hma, Hmd.
  pose proof (keyword_names_remove "root" kwargs Hall) as Hrem.
  rewrite (remove_absent "_mapped_attrs" (Dict.remove "root" kwargs))
    by (apply keyword_names_exclude; [assumption | reflexivity]).
  rewrite (remove_absent "_metadata" (Dict.remove "root" kwargs))
    by (apply keyword_names_exclude; [assumption | reflexivity]).
  unfold __init__. rewrite (keyword_names_no_underscore _ Hrem).
  unfold root_last, _prepare_item. simpl.
  destruct (Dict.get "root" kwargs) as [r|].
  - now rewrite set_root_after_remove, map_prepare_id.
  - now rewrite map_prepare_id, app_nil_r.
Qed.

Lemma set_or_empty_set (attrs : list value) :
  set_or_empty (VSet attrs) = Ok attrs.
Proof. now destruct attrs. Qed.

(** The constructor called with the two named keywords in front of the
    slot keywords. *)
Lemma new_Structured_named attrs md (structure : list (string * value)) :
  forallb keyword_name (Dict.keys structure) = true ->
  new_Structured (("_mapped_attrs", VSet attrs) :: ("_metadata", md) :: structure)
  = Ok (mkStructured (root_last structure) attrs md).
Proof.
  intros Hall. unfold new_Structured.
  assert (Hself : Dict.contains "self"
            (("_mapped_attrs", VSet attrs) :: ("_metadata", md) :: structure)
            = false).
  { unfold Dict.contains. simpl.
    fold (Dict.contains "self" structure).
    apply contains_false_not_in, keyword_names_exclude; [assumption | reflexivity]. }
  rewrite Hself. simpl.
  pose proof (keyword_names_remove "root" structure Hall) as Hrem.
  rewrite (remove_absent "_mapped_attrs" (Dict.remove "root" structure))
    by (apply keyword_names_exclude; [assumption | reflexivity]).
  rewrite (remove_absent "_metadata" (Dict.remove "root" structure))
    by (apply keyword_names_exclude; [assumption | reflexivity]).
  unfold __init__. rewrite (keyword_names_no_underscore _ Hrem).
  rewrite set_or_empty_set. unfold root_last, _prepare_item. simpl.
  destruct (Dict.get "root" structure) as [r|].
  - now rewrite set_root_after_remove, map_prepare_id.
  - now rewrite map_prepare_id, app_nil_r.
Qed.

(** The constructor call that ends [_simplify], on keyword names. *)
Lemma new_like_ok (self : Structured) (structure : list (string * value)) :
  forallb keyword_name (Dict.keys structure) = true ->
  new_like self structure =
  Ok (mkStructured (root_last structure) (_mapped_attrs self) (_metadata self)).
Proof.
  intros Hall. unfold new_like.
  rewrite (contains_false_not_in "_mapped_attrs" structure)
    by (apply keyword_names_exclude; [assumption | reflexivity]).
  rewrite (contains_false_not_in "_metadata" structure)
    by (apply keyword_names_exclude; [assumption | reflexivity]).
  cbn [orb]. now apply new_Structured_named.
Qed.

Lemma get_root_last k (d : list (string * value)) :
  Dict.get k (root_last d) = Dict.get k d.
Proof.
  unfold root_last. rewrite get_app.
  destruct (String.eqb_spec k "root") as [->|Hne].
  - rewrite get_remove_same. now destruct (Dict.get "root" d).
  - rewrite get_remove_other by exact Hne.
    destruct (Dict.get k d) eqn:E; [reflexivity|].
    destruct (Dict.get "root" d); simpl; [|reflexivity].
    destruct (String.eqb_spec "root" k); [congruence | reflexivity].
Qed.

Lemma keys_root_last_in k (d : list (string * value)) :
  In k (Dict.keys (root_last d)) <-> In k (Dict.keys d).
Proof.
  split; intros H.
  - destruct (Dict.get k (root_last d)) eqn:E.
    + rewrite get_root_last in E. eapply get_in_keys; eauto.
    + apply get_none_not_in in E. contradiction.
  - destruct (Dict.get k d) eqn:E.
    + rewrite <- get_root_last in E. eapply get_in_keys; eauto.
    + apply get_none_not_in in E. contradiction.
Qed.

Lemma keyword_names_root_last (d : list (string * value)) :
  forallb keyword_name (Dict.keys d) = true ->
  forallb keyword_name (Dict.keys (root_last d)) = true.
Proof.
  rewrite !forallb_forall. intros H x Hx. apply H. now apply keys_root_last_in.
Qed.

Lemma remove_app {V} k (d e : list (string * V)) :
  Dict.remove k (d ++ e) = Dict.remove k d ++ Dict.remove k e.
Proof. unfold Dict.remove. apply filter_app. Qed.

Lemma remove_remove {V} k (d : list (string * V)) :
  Dict.remove k (Dict.remove k d) = Dict.remove k d.
Proof.
  apply remove_absent. intros H. apply keys_remove_incl in H. now destruct H.
Qed.

Lemma root_last_idempotent (d : list (string * value)) :
  root_last (root_last d) = root_last d.
Proof.
  unfold root_last at 1. rewrite get_root_last.
  f_equal. unfold root_last. rewrite remove_app, remove_remove.
  destruct (Dict.get "root" d); simpl; now rewrite app_nil_r.
Qed.

Lemma remove_map_values {V W} (f : V -> W) k (d : list (string * V)) :
  Dict.remove k (Dict.map_values f d) = Dict.map_values f (Dict.remove k d).
Proof.
  induction d as [|[k' v] rest IH]; simpl; [reflexivity|].
  destruct (String.eqb k' k); simpl; now rewrite IH.
Qed.

Lemma get_map_values {V W} (f : V -> W) k (d : list (string * V)) :
  Dict.get k (Dict.map_values f d) = option_map f (Dict.get k d).
Proof.
  induction d as [|[k' v] rest IH]; simpl; [reflexivity|].
  destruct (String.eqb k' k); [reflexivity | exact IH].
Qed.

Lemma map_values_app {V W} (f : V -> W) (d e : list (string * V)) :
  Dict.map_values f (d ++ e) = Dict.map_values f d ++ Dict.map_values f e.
Proof.
  induction d as [|[k v] rest IH]; simpl; [reflexivity | now rewrite IH].
Qed.

Lemma root_last_map_values (f : value -> value) (d : list (string * value)) :
  root_last (Dict.map_values f d) = Dict.map_values f (root_last d).
Proof.
  unfold root_last.
  rewrite remove_map_values, get_map_values, map_values_app.
  now destruct (Dict.get "root" d).
Qed.

(** ** Simplification: the loop *)

Lemma get_in {V} (d : list (string * V)) k v :
  Dict.get k d = Some v -> In (k, v) d.
Proof.
  induction d as [|[k' v'] rest IH]; simpl; [discriminate|].
  destruct (String.eqb_spec k' k) as [->|Hne].
  - intros E. inversion E; subst. now left.
  - intros E. right. auto.
Qed.

(** The induction hypothesis on the slots, at the slot [H] looks up. *)
Ltac slot_hypothesis IH H :=
  rewrite Forall_forall in IH;
  specialize (IH _ (get_in _ _ _ H)); cbn [snd] in IH.

Lemma simplify_guard_step unwrap cur :
  simplify_guard unwrap cur = true ->
  exists root, Dict.get "root" (_structure cur) = Some root
               /\ unwrap_step unwrap (VStructured cur) root.
Proof.
  unfold simplify_guard, root_is_Structured. intros H.
  apply andb_true_iff in H. destruct H as [H Hu].
  apply andb_true_iff in H. destruct H as [Hr Hs].
  apply negb_true_iff in Hs.
  destruct (proj1 (contains_get "root" (_structure cur)) Hr) as [root Hroot].
  exists root. split; [assumption|].
  constructor; try assumption.
  rewrite Hroot in Hu. apply orb_true_iff in Hu. tauto.
Qed.

Lemma unwrap_step_guard unwrap v w :
  unwrap_step unwrap v w ->
  exists cur, v = VStructured cur /\ simplify_guard unwrap cur = true.
Proof.
  intros [cur root Hr Hs Hu Hroot]. exists cur. split; [reflexivity|].
  unfold simplify_guard, root_is_Structured. rewrite Hr, Hs, Hroot. simpl.
  destruct Hu as [ -> | -> ]; [reflexivity | apply orb_true_r].
Qed.

Lemma simplify_walk_reaches unwrap v :
  clos_refl_trans_1n value (unwrap_step unwrap) v (simplify_walk unwrap v).
Proof.
  induction v as [ | z | s | l IH | l IH | l IH | d IH | cur IH IHa IHm ]
    using value_nested_ind.
  1-7: (simpl; constructor).
  simpl. destruct (simplify_guard unwrap cur) eqn:G; [|constructor].
  destruct (simplify_guard_step _ _ G) as [root [Hroot Hstep]].
  rewrite get_with_get, Hroot. simpl.
  econstructor; [exact Hstep|].
  slot_hypothesis IH Hroot. exact IH.
Qed.

Lemma simplify_walk_stuck unwrap v w :
  ~ unwrap_step unwrap (simplify_walk unwrap v) w.
Proof.
  induction v as [ | z | s | l IH | l IH | l IH | d IH | cur IH IHa IHm ]
    using value_nested_ind.
  1-7: (simpl; intros H; inversion H).
  simpl. destruct (simplify_guard unwrap cur) eqn:G.
  - destruct (simplify_guard_step _ _ G) as [root [Hroot _]].
    rewrite get_with_get, Hroot. simpl.
    slot_hypothesis IH Hroot. exact IH.
  - intros H. apply unwrap_step_guard in H. destruct H as [c [E Hc]].
    inversion E; subst. congruence.
Qed.

Lemma simplify_from_walk recurse unwrap inplace self v :
  simplify_from recurse unwrap inplace self v =
  simplify_from recurse unwrap inplace self (simplify_walk unwrap v).
Proof.
  induction v as [ | z | s | l IH | l IH | l IH | d IH | cur IH IHa IHm ]
    using value_nested_ind.
  1-7: reflexivity.
  cbn [simplify_walk].
  destruct (simplify_guard unwrap cur) eqn:G; [|reflexivity].
  destruct (simplify_guard_step _ _ G) as [root [Hroot _]].
  rewrite get_with_get, Hroot. cbn [option_map].
  slot_hypothesis IH Hroot. rewrite <- IH.
  cbn [simplify_from]. rewrite G, get_with_get, Hroot. reflexivity.
Qed.

Lemma simplify_from_leaf recurse unwrap inplace self v :
  isinstance_Structured v = false ->
  simplify_from recurse unwrap inplace self v = (Ok v, self).
Proof. destruct v; simpl; intros H; (reflexivity || discriminate). Qed.

(** C9.  [_simplify(inplace=True, unwrap=True)] raises [RuntimeError], and
    [self] is what it was: the check comes before the loop and before the
    one assignment to [self._structure]. *)
Theorem simplify_inplace_unwrap_rejected :
  forall (self : Structured) (recurse : bool),
    _simplify self recurse true true = (Raise RuntimeError, self).
Proof. intros self recurse. reflexivity. Qed.

(** ** Iteration *)

Lemma non_root_values_filter (d : list (string * value)) :
  non_root_values d =
  map snd (filter (fun kv => negb (String.eqb (fst kv) "root")) d).
Proof.
  induction d as [|[k v] rest IH]; simpl; [reflexivity|].
  destruct (negb (String.eqb k "root")); simpl; now rewrite IH.
Qed.

Lemma no_structure_only_root (self : Structured) :
  _has_structure self = false ->
  forall k, In k (Dict.keys (_structure self)) -> k = "root".
Proof.
  unfold _has_structure, is_root_singleton. intros H k Hin.
  apply negb_false_iff in H.
  destruct (Dict.keys (_structure self)) as [|k0 ks] eqn:E; [discriminate|].
  rewrite forallb_forall in H. specialize (H k Hin).
  symmetry. now apply String.eqb_eq.
Qed.

Lemma no_structure_no_other_values (self : Structured) :
  _has_structure self = false -> non_root_values (_structure self) = [].
Proof.
  intros H. pose proof (no_structure_only_root self H) as Hk.
  induction (_structure self) as [|[k v] rest IH]; simpl; [reflexivity|].
  rewrite (Hk k (or_introl eq_refl)). rewrite String.eqb_refl. simpl.
  apply IH. intros k' Hin. apply Hk. now right.
Qed.

(** C2.  Iteration.  When root is the only slot, a root that is a sequence
    (tuple, list or string) is yielded element by element, in order, and
    any other root is yielded as the one item.  When there is structure,
    the root, if there is one, comes first and whole, then the values of
    the other slots in insertion order.  So [Structured((1, 2, 3))] yields
    1, 2, 3 and [Structured((1, 2), b=3)] yields (1, 2), 3. *)
Theorem iter_order :
  (forall (self : Structured) (root : value),
      Dict.get "root" (_structure self) = Some root ->
      _has_structure self = false ->
      (forall l, root = VTuple l -> __iter__ self = l)
      /\ (forall l, root = VList l -> __iter__ self = l)
      /\ (forall s, root = VStr s -> __iter__ self = chars s)
      /\ (isinstance_Sequence root = false -> __iter__ self = [root]))
  /\ (forall self : Structured,
         _has_structure self = true ->
         __iter__ self =
         match Dict.get "root" (_structure self) with
         | Some root => [root]
         | None => []
         end
         ++ map snd (filter (fun kv => negb (String.eqb (fst kv) "root"))
                       (_structure self)))
  /\ fmap __iter__ (__init__ (Some (VTuple [VInt 1; VInt 2; VInt 3])) VNone VNone [])
     = Ok [VInt 1; VInt 2; VInt 3]
  /\ fmap __iter__ (__init__ (Some (VTuple [VInt 1; VInt 2])) VNone VNone
                      [("b", VInt 3)])
     = Ok [VTuple [VInt 1; VInt 2]; VInt 3].
Proof.
  split; [|split; [|split; reflexivity]].
  - intros self root Hroot Hs.
    unfold __iter__. rewrite Hroot, Hs, (no_structure_no_other_values self Hs).
    cbn [negb andb]. rewrite app_nil_r.
    repeat split.
    + intros l ->. reflexivity.
    + intros l ->. reflexivity.
    + intros s ->. reflexivity.
    + intros ->. reflexivity.
  - intros self Hs. unfold __iter__. rewrite Hs, non_root_values_filter.
    cbn [negb andb]. now destruct (Dict.get "root" (_structure self)).
Qed.

Lemma iter_order_witness :
  __iter__ (mkStructured [("root", VList [VInt 7; VInt 8])] [] VNone)
  = [VInt 7; VInt 8]
  /\ __iter__ (mkStructured [("a", VInt 1); ("root", VStr "xy"); ("b", VInt 2)] [] VNone)
     = [VStr "xy"; VInt 1; VInt 2].
Proof.
  split.
  - apply (proj1 (proj2 (proj1 iter_order
             (mkStructured [("root", VList [VInt 7; VInt 8])] [] VNone)
             (VList [VInt 7; VInt 8]) eq_refl eq_refl))).
    reflexivity.
  - exact (proj1 (proj2 iter_order)
             (mkStructured [("a", VInt 1); ("root", VStr "xy"); ("b", VInt 2)]
                [] VNone) eq_refl).
Defined.

(** ** Bracket read *)

Lemma py_eq_None key : py_eq VNone key = true <-> key = VNone.
Proof. destruct key; simpl; split; congruence. Qed.

Lemma py_eq_str_l s key : py_eq (VStr s) key = true <-> key = VStr s.
Proof.
  destruct key; simpl; split; try congruence.
  - intros H. apply String.eqb_eq in H. now subst.
  - intros H. inversion H. apply String.eqb_refl.
Qed.

Lemma names_root_spec key :
  py_eq VNone key || py_eq (VStr "root") key = true
  <-> key = VNone \/ key = VStr "root".
Proof. rewrite orb_true_iff, py_eq_None, py_eq_str_l. tauto. Qed.

(** C4.  Bracket read is a cascade of four cases.  (1) Root is the only
    slot: the key goes to the indexing of the root, whose result, value or
    exception, is the result.  Otherwise (2) the key is [None] or ["root"]
    and there is a root: the root.  Otherwise (3) the key is a string that
    does not start with an underscore and names a slot: that slot.
    Otherwise (4) [KeyError]. *)
Theorem getitem_cascade :
  forall (self : Structured) (key : value),
    let bare := _has_root self && negb (_has_structure self) in
    let names_root := key = VNone \/ key = VStr "root" in
    (bare = true ->
     forall root, Dict.get "root" (_structure self) = Some root ->
       __getitem__ self key = py_getitem root key
       /\ forall e, py_getitem root key = Raise e ->
                    __getitem__ self key = Raise e)
    /\ (bare = false -> names_root ->
        forall root, Dict.get "root" (_structure self) = Some root ->
          __getitem__ self key = Ok root)
    /\ (bare = false -> ~ (names_root /\ _has_root self = true) ->
        forall k v, key = VStr k -> startswith_underscore k = false ->
          Dict.get k (_structure self) = Some v ->
          __getitem__ self key = Ok v)
    /\ (bare = false -> ~ (names_root /\ _has_root self = true) ->
        (forall k, key = VStr k ->
           startswith_underscore k = true
           \/ Dict.get k (_structure self) = None) ->
        __getitem__ self key = Raise KeyError).
Proof.
  intros self key bare names_root.
  unfold __getitem__. cbn [py_getitem]. fold bare.
  split; [|split; [|split]].
  - intros Hb root Hroot. rewrite Hb, get_with_get, Hroot.
    split; [reflexivity | auto].
  - intros Hb Hn root Hroot. rewrite Hb.
    apply names_root_spec in Hn. rewrite Hn.
    assert (Hr : _has_root self = true)
      by (apply contains_get; eauto).
    rewrite Hr, Hroot. reflexivity.
  - intros Hb Hn k v -> Hu Hk. rewrite Hb.
    destruct ((py_eq VNone (VStr k) || py_eq (VStr "root") (VStr k))
              && _has_root self) eqn:E.
    + exfalso. apply Hn. apply andb_true_iff in E. destruct E as [E1 E2].
      apply names_root_spec in E1. now split.
    + rewrite Hu, Hk. reflexivity.
  - intros Hb Hn Hk. rewrite Hb.
    destruct ((py_eq VNone key || py_eq (VStr "root") key)
              && _has_root self) eqn:E.
    + exfalso. apply Hn. apply andb_true_iff in E. destruct E as [E1 E2].
      apply names_root_spec in E1. now split.
    + destruct key; try reflexivity.
      destruct (Hk s eq_refl) as [Hu|Hnone].
      * now rewrite Hu.
      * rewrite Hnone. now destruct (startswith_underscore s).
Qed.

Lemma getitem_cascade_witness :
  let bare := mkStructured [("root", VTuple [VInt 1; VInt 2])] [] VNone in
  let keyed := mkStructured [("a", VInt 1); ("root", VInt 0)] [] VNone in
  (__getitem__ bare (VInt 5) = py_getitem (VTuple [VInt 1; VInt 2]) (VInt 5)
   /\ forall e, py_getitem (VTuple [VInt 1; VInt 2]) (VInt 5) = Raise e ->
                __getitem__ bare (VInt 5) = Raise e)
  /\ __getitem__ keyed VNone = Ok (VInt 0)
  /\ __getitem__ keyed (VStr "a") = Ok (VInt 1)
  /\ __getitem__ keyed (VStr "b") = Raise KeyError.
Proof.
  intros bare keyed.
  split; [exact (proj1 (getitem_cascade bare (VInt 5)) eq_refl _ eq_refl)|].
  split; [|split].
  - apply (proj1 (proj2 (getitem_cascade keyed VNone)) eq_refl); [now left | reflexivity].
  - apply (proj1 (proj2 (proj2 (getitem_cascade keyed (VStr "a")))) eq_refl)
      with (k := "a"); try reflexivity.
    intros [[H|H] _]; discriminate H.
  - apply (proj2 (proj2 (proj2 (getitem_cascade keyed (VStr "b")))) eq_refl).
    + intros [[H|H] _]; discriminate H.
    + intros k E. inversion E; subst. now right.
Defined.

(** ** Dictionary form and back *)

(** C8.  For the container with slots root = (1, 2) and c = (4, 5),
    [_to_dict] is the mapping with root (1, 2) and c (4, 5), and the
    constructor applied to that mapping gives a container that [__eq__]
    holds equal to the original, in both directions.  The same holds for
    [Structured((1, 2), c=(4, 5))], whose slot dictionary has c first:
    its [_to_dict] equals the mapping under [==]. *)
Theorem to_dict_round_trip :
  let t12 := VTuple [VInt 1; VInt 2] in
  let t45 := VTuple [VInt 4; VInt 5] in
  let mapping := [("root", t12); ("c", t45)] in
  (forall attrs md recurse,
      let self := mkStructured [("root", t12); ("c", t45)] attrs md in
      _to_dict self recurse = mapping
      /\ exists again, new_Structured (_to_dict self recurse) = Ok again
                       /\ __eq__ again (VStructured self) = true
                       /\ __eq__ self (VStructured again) = true)
  /\ (exists built,
         __init__ (Some t12) VNone VNone [("c", t45)] = Ok built
         /\ py_eq (VDict (_to_dict built true)) (VDict mapping) = true
         /\ exists again, new_Structured (_to_dict built true) = Ok again
                          /\ __eq__ again (VStructured built) = true
                          /\ __eq__ built (VStructured again) = true).
Proof.
  intros t12 t45 mapping. split.
  - intros attrs md recurse self. split.
    + now destruct recurse.
    + assert (E : _to_dict self recurse = mapping) by now destruct recurse.
      rewrite E. eexists. split; [reflexivity|]. split; reflexivity.
  - eexists. split; [reflexivity|]. split; [reflexivity|].
    eexists. split; [reflexivity|]. split; reflexivity.
Qed.

(** ** Overlaying dictionaries *)

Lemma set_prefix {V} (base d : list (string * V)) k v :
  ~ In k (Dict.keys base) -> Dict.set k v (base ++ d) = base ++ Dict.set k v d.
Proof.
  induction base as [|[k' v'] rest IH]; simpl; intros H; [reflexivity|].
  destruct (String.eqb_spec k' k) as [->|Hne].
  - exfalso. apply H. now left.
  - f_equal. apply IH. intros I. apply H. now right.
Qed.

Lemma update_prefix {V} (base d e : list (string * V)) :
  (forall k, In k (Dict.keys e) -> ~ In k (Dict.keys base)) ->
  Dict.update (base ++ d) e = base ++ Dict.update d e.
Proof.
  unfold Dict.update. revert d.
  induction e as [|[k v] rest IH]; simpl; intros d H; [reflexivity|].
  rewrite set_prefix by (apply H; now left).
  apply IH. intros k' Hk'. apply H. now right.
Qed.

Lemma update_fresh {V} (a d : list (string * V)) :
  NoDup (Dict.keys (a ++ d)) -> Dict.update a d = a ++ d.
Proof.
  unfold Dict.update. revert a.
  induction d as [|[k v] rest IH]; simpl; intros a H.
  - now rewrite app_nil_r.
  - assert (Hk : ~ In k (Dict.keys a)).
    { unfold Dict.keys in *. rewrite map_app in H. simpl in H.
      apply NoDup_remove_2 in H. intros I. apply H. apply in_or_app. now left. }
    rewrite (set_absent _ _ _ Hk).
    rewrite IH; rewrite <- app_assoc; [reflexivity | exact H].
Qed.

Lemma keys_set_in {V} k (v : V) (d : list (string * V)) x :
  In x (Dict.keys (Dict.set k v d)) <-> In x (Dict.keys d) \/ x = k.
Proof.
  rewrite keys_set. destruct (Dict.contains k d) eqn:E.
  - split; [now left|]. intros [H| ->]; [assumption|].
    apply contains_get in E. destruct E as [w E]. eapply get_in_keys; eauto.
  - rewrite in_app_iff. simpl. intuition.
Qed.

Lemma keys_update_in {V} (d e : list (string * V)) x :
  In x (Dict.keys (Dict.update d e)) <-> In x (Dict.keys d) \/ In x (Dict.keys e).
Proof.
  unfold Dict.update. revert d.
  induction e as [|[k v] rest IH]; simpl; intros d; [tauto|].
  rewrite IH, keys_set_in. intuition.
Qed.

Lemma NoDup_keys_set {V} k (v : V) (d : list (string * V)) :
  NoDup (Dict.keys d) -> NoDup (Dict.keys (Dict.set k v d)).
Proof.
  intros H. rewrite keys_set. destruct (Dict.contains k d) eqn:E; [assumption|].
  apply NoDup_app; [assumption | repeat constructor; intros [] | ].
  intros x Hx [Ex|[]]. subst x.
  destruct (Dict.get k d) eqn:G.
  - unfold Dict.contains in E. now rewrite G in E.
  - apply get_none_not_in in G. contradiction.
Qed.

Lemma get_update {V} (d e : list (string * V)) k :
  NoDup (Dict.keys e) ->
  Dict.get k (Dict.update d e) =
  match Dict.get k e with Some v => Some v | None => Dict.get k d end.
Proof.
  unfold Dict.update. revert d.
  induction e as [|[k0 v0] rest IH]; simpl; intros d H; [reflexivity|].
  inversion H as [|? ? Hnot Hrest]; subst.
  rewrite (IH _ Hrest), get_set.
  destruct (String.eqb_spec k0 k) as [->|Hne]; [|reflexivity].
  apply get_none_not_in in Hnot. now rewrite Hnot.
Qed.



Lemma keys_remove {V} k (d : list (string * V)) :
  Dict.keys (Dict.remove k d) =
  filter (fun x => negb (String.eqb x k)) (Dict.keys d).
Proof.
  induction d as [|[k' v'] rest IH]; simpl; [reflexivity|].
  destruct (String.eqb k' k); simpl; now rewrite IH.
Qed.

Lemma remove_root_last (d : list (string * value)) :
  Dict.remove "root" (root_last d) = Dict.remove "root" d.
Proof.
  unfold root_last. rewrite remove_app, remove_remove.
  destruct (Dict.get "root" d); [|apply app_nil_r].
  unfold Dict.remove at 2. cbn [filter fst].
  rewrite String.eqb_refl. apply app_nil_r.
Qed.

Lemma keyword_names_replacements root structure :
  forallb keyword_name (Dict.keys structure) = true ->
  forallb keyword_name (Dict.keys (replacements root structure)) = true.
Proof.
  intros H. destruct root as [r|]; [|exact H]. simpl.
  rewrite forallb_forall in *. intros x Hx.
  apply keys_set_in in Hx. destruct Hx as [Hx| ->]; [auto | reflexivity].
Qed.

Lemma update_ok (self : Structured) root structure :
  NoDup (Dict.keys (_structure self)) ->
  forallb keyword_name (Dict.keys (_structure self)) = true ->
  forallb keyword_name (Dict.keys structure) = true ->
  _update self root structure =
  Ok (mkStructured
        (root_last (Dict.update (_structure self) (replacements root structure)))
        (_mapped_attrs self) (_metadata self)).
Proof.
  intros Hnd Hself Hstruct. unfold _update. fold (replacements root structure).
  rewrite map_prepare_id.
  pose proof (keyword_names_replacements root structure Hstruct) as Hrepl.
  set (base := [("_mapped_attrs", VSet (_mapped_attrs self));
                ("_metadata", _metadata self)]).
  assert (Hbase : forall d : list (string * value),
                  forallb keyword_name (Dict.keys d) = true ->
                  forall k, In k (Dict.keys d) -> ~ In k (Dict.keys base)).
  { intros d Hd k Hk [<-|[<-|[]]];
      revert Hk; apply keyword_names_exclude; (assumption || reflexivity). }
  replace (Dict.update base (_structure self)) with (base ++ _structure self).
  2:{ rewrite <- (app_nil_r base) at 2.
      rewrite update_prefix by (apply Hbase; assumption).
      now rewrite update_fresh. }
  rewrite update_prefix by (apply Hbase; assumption).
  apply new_Structured_named.
  rewrite forallb_forall in *. intros x Hx.
  apply keys_update_in in Hx. destruct Hx; auto.
Qed.

Lemma NoDup_keys_replacements root (structure : list (string * value)) :
  NoDup (Dict.keys structure) ->
  NoDup (Dict.keys (replacements root structure)).
Proof.
  destruct root; simpl; [apply NoDup_keys_set | trivial].
Qed.



(** ** Structural update *)




(** ** Rejected and accepted slot names *)

Lemma in_keys_remove {V} k x (d : list (string * V)) :
  In k (Dict.keys d) -> k <> x -> In k (Dict.keys (Dict.remove x d)).
Proof.
  intros Hin Hne. rewrite keys_remove. apply filter_In. split; [assumption|].
  destruct (String.eqb_spec k x); [contradiction | reflexivity].
Qed.

Lemma underscore_not_root k : startswith_underscore k = true -> k <> "root".
Proof. intros H ->. discriminate H. Qed.

Lemma new_Structured_underscore (kwargs : list (string * value)) k :
  In k (Dict.keys kwargs) ->
  startswith_underscore k = true ->
  k <> "_mapped_attrs" -> k <> "_metadata" ->
  Dict.contains "self" kwargs = false ->
  new_Structured kwargs = Raise ValueError.
Proof.
  intros Hin Hu Hma Hmd Hself. unfold new_Structured, __init__. rewrite Hself.
  assert (E : existsb startswith_underscore
                (Dict.keys (Dict.remove "_metadata"
                   (Dict.remove "_mapped_attrs" (Dict.remove "root" kwargs))))
              = true).
  { apply existsb_exists. exists k. split; [|assumption].
    repeat apply in_keys_remove; auto using underscore_not_root. }
  now rewrite E.
Qed.

Lemma contains_in {V} k (d : list (string * V)) :
  Dict.contains k d = true <-> In k (Dict.keys d).
Proof.
  rewrite contains_get. split.
  - intros [v H]. eapply get_in_keys; eauto.
  - intros H. destruct (Dict.get k d) eqn:E; [eauto|].
    apply get_none_not_in in E. contradiction.
Qed.

(** Whether the keyword dictionary [_update] passes to the constructor has
    the key [self]. *)
Lemma update_keywords_self (self : Structured) root
  (structure : list (string * value)) :
  Dict.contains "self"
    (Dict.update
       (Dict.update [("_mapped_attrs", VSet (_mapped_attrs self));
                     ("_metadata", _metadata self)] (_structure self))
       (replacements root structure))
  = Dict.contains "self" (_structure self) || Dict.contains "self" structure.
Proof.
  apply eq_true_iff_eq.
  rewrite orb_true_iff, !contains_in, !keys_update_in.
  assert (Hr : In "self" (Dict.keys (replacements root structure))
               <-> In "self" (Dict.keys structure)).
  { destruct root as [r|]; simpl; [|tauto]. rewrite keys_set_in.
    split; [intros [H|H]; [assumption | discriminate H] | tauto]. }
  rewrite Hr. simpl. intuition discriminate.
Qed.

Lemma update_underscore (self : Structured) root
  (structure : list (string * value)) k :
  In k (Dict.keys structure) ->
  startswith_underscore k = true ->
  k <> "_mapped_attrs" -> k <> "_metadata" ->
  _update self root structure =
  Raise (if Dict.contains "self" (_structure self) || Dict.contains "self" structure
         then TypeError else ValueError).
Proof.
  intros Hin Hu Hma Hmd. rewrite <- (update_keywords_self self root structure).
  unfold _update. fold (replacements root structure). rewrite map_prepare_id.
  match goal with
  | |- new_Structured ?kw = _ => destruct (Dict.contains "self" kw) eqn:E
  end.
  - unfold new_Structured. now rewrite E.
  - apply new_Structured_underscore with (k := k); try assumption.
    apply keys_update_in. right.
    destruct root as [r|]; simpl; [|assumption].
    apply keys_set_in. now left.
Qed.

(** C3, as the code has it.  A slot name that starts with an underscore
    makes the constructor call and [_update] fail, with [ValueError] when
    no slot or keyword is named [self] and with [TypeError] otherwise; the
    names [_mapped_attrs] and [_metadata] are parameters of the
    constructor, not slot names.  Bracket write raises [KeyError] when the
    key is not a string, is no identifier for [str.isidentifier], or
    starts with an underscore.  The constructor call and [_update] accept
    every name, identifier or not, that neither starts with an underscore
    nor is [self]. *)
Theorem invalid_keys_rejected :
  (forall root attrs md (structure : list (string * value)),
      existsb startswith_underscore (Dict.keys structure) = true ->
      __init__ root attrs md structure = Raise ValueError)
  /\ (forall (kwargs : list (string * value)) k,
         In k (Dict.keys kwargs) ->
         startswith_underscore k = true ->
         k <> "_mapped_attrs" -> k <> "_metadata" ->
         new_Structured kwargs
         = Raise (if Dict.contains "self" kwargs then TypeError else ValueError))
  /\ (forall (self : Structured) root (structure : list (string * value)) k,
         In k (Dict.keys structure) ->
         startswith_underscore k = true ->
         k <> "_mapped_attrs" -> k <> "_metadata" ->
         _update self root structure
         = Raise (if Dict.contains "self" (_structure self)
                     || Dict.contains "self" structure
                  then TypeError else ValueError))
  /\ (forall (isidentifier : string -> bool) (self : Structured) k v,
         isidentifier k = false \/ startswith_underscore k = true ->
         __setitem__ isidentifier self (VStr k) v = Raise KeyError)
  /\ (forall (isidentifier : string -> bool) (self : Structured) key v,
         (forall k, key <> VStr k) ->
         __setitem__ isidentifier self key v = Raise KeyError)
  /\ (forall kwargs : list (string * value),
         forallb keyword_name (Dict.keys kwargs) = true ->
         exists s, new_Structured kwargs = Ok s
                   /\ forall k, Dict.get k (_structure s) = Dict.get k kwargs)
  /\ (forall (self : Structured) root (structure : list (string * value)),
         NoDup (Dict.keys (_structure self)) ->
         forallb keyword_name (Dict.keys (_structure self)) = true ->
         NoDup (Dict.keys structure) ->
         forallb keyword_name (Dict.keys structure) = true ->
         exists c, _update self root structure = Ok c
                   /\ forall k v, Dict.get k structure = Some v -> k <> "root" ->
                                  Dict.get k (_structure c) = Some v).
Proof.
  split; [|split; [|split; [|split; [|split; [|split]]]]].
  - intros root attrs md structure H. unfold __init__. now rewrite H.
  - intros kwargs k Hin Hu Hma Hmd.
    destruct (Dict.contains "self" kwargs) eqn:E.
    + unfold new_Structured. now rewrite E.
    + now apply new_Structured_underscore with (k := k).
  - exact update_underscore.
  - intros isidentifier self k v [H|H]; unfold __setitem__.
    + now rewrite H.
    + rewrite H. now destruct (isidentifier k).
  - intros isidentifier self key v H. destruct key; try reflexivity.
    now destruct (H s).
  - intros kwargs Hkw. rewrite (new_Structured_ok kwargs Hkw).
    eexists. split; [reflexivity|]. intros k. apply get_root_last.
  - intros self root structure Hnd Hkw Hnd' Hkw'.
    rewrite (update_ok self root structure Hnd Hkw Hkw').
    eexists. split; [reflexivity|]. cbn [_structure].
    intros k v Hk Hne. rewrite get_root_last.
    rewrite get_update by now apply NoDup_keys_replacements.
    assert (Hr : Dict.get k (replacements root structure) = Some v).
    { destruct root as [r|]; simpl; [|assumption]. rewrite get_set.
      destruct (String.eqb_spec "root" k); [congruence | assumption]. }
    now rewrite Hr.
Qed.

Lemma invalid_keys_rejected_witness :
  __init__ None VNone VNone [("a", VInt 1); ("_b", VInt 2)] = Raise ValueError
  /\ new_Structured [("_b", VInt 2)] = Raise ValueError
  /\ _update (mkStructured [("a", VInt 1)] [] VNone) None [("_b", VInt 2)]
     = Raise ValueError
  /\ __setitem__ ascii_isidentifier (mkStructured [] [] VNone)
       (VStr "a b") (VInt 1) = Raise KeyError
  /\ __setitem__ ascii_isidentifier (mkStructured [] [] VNone)
       (VStr "_a") (VInt 1) = Raise KeyError
  /\ __setitem__ ascii_isidentifier (mkStructured [] [] VNone)
       (VInt 0) (VInt 1) = Raise KeyError
  /\ (exists s, new_Structured [("", VInt 1); ("a b", VInt 2)] = Ok s
                /\ forall k, Dict.get k (_structure s)
                             = Dict.get k [("", VInt 1); ("a b", VInt 2)])
  /\ exists c, _update (mkStructured [("a", VInt 1)] [] VNone) None
                 [("a b", VInt 2)] = Ok c
               /\ forall k v, Dict.get k [("a b", VInt 2)] = Some v ->
                              k <> "root" ->
                              Dict.get k (_structure c) = Some v.
Proof.
  destruct invalid_keys_rejected as [H1 [H2 [H3 [H4 [H5 [H6 H7]]]]]].
  split; [apply H1; reflexivity|].
  split; [apply (H2 [("_b", VInt 2)] "_b");
          (reflexivity || discriminate || (simpl; tauto))|].
  split; [apply (H3 (mkStructured [("a", VInt 1)] [] VNone) None
                    [("_b", VInt 2)] "_b");
          (reflexivity || discriminate || (simpl; tauto))|].
  split; [apply H4; left; reflexivity|].
  split; [apply H4; right; reflexivity|].
  split; [apply H5; discriminate|].
  split; [apply H6; reflexivity|].
  apply H7; try reflexivity; repeat constructor; simpl; intuition discriminate.
Defined.

(** [Structured( **{"a b": 1})] and [Structured( **{"": 1})] succeed, and so
    does [_update] with such a key, though neither key is an identifier. *)
Lemma construction_accepts_non_identifier :
  ascii_isidentifier "a b" = false
  /\ ascii_isidentifier "" = false
  /\ new_Structured [("a b", VInt 1)]
     = Ok (mkStructured [("a b", VInt 1)] [] VNone)
  /\ new_Structured [("", VInt 1)] = Ok (mkStructured [("", VInt 1)] [] VNone)
  /\ _update (mkStructured [("a", VInt 0)] [] VNone) None [("a b", VInt 1)]
     = Ok (mkStructured [("a", VInt 0); ("a b", VInt 1)] [] VNone).
Proof. repeat split. Qed.

(** ** Mapping *)

Lemma constructible_slots (s : Structured) :
  constructible (VStructured s) = true <->
  forallb keyword_name (Dict.keys (_structure s)) = true
  /\ Forall (fun kv => constructible (snd kv) = true) (_structure s).
Proof.
  cbn [constructible]. rewrite andb_true_iff.
  apply and_iff_compat_l.
  induction (_structure s) as [|[k v] rest IH]; simpl.
  - split; [constructor | reflexivity].
  - rewrite andb_true_iff, IH. split.
    + intros [Hv Hr]. now constructor.
    + intros H. inversion H; subst. now split.
Qed.

Lemma not_Structured_constructible v :
  isinstance_Structured v = false -> constructible v = true.
Proof. destruct v; simpl; intros H; (reflexivity || discriminate). Qed.

Lemma in_root_last kv (d : list (string * value)) :
  In kv (root_last d) -> In kv d.
Proof.
  unfold root_last. rewrite in_app_iff. intros [H|H].
  - unfold Dict.remove in H. apply filter_In in H. now destruct H.
  - destruct (Dict.get "root" d) eqn:E; [|contradiction].
    destruct H as [<-|[]]. now apply get_in.
Qed.

Lemma in_map_values {V W} (f : V -> W) (d : list (string * V)) kw :
  In kw (Dict.map_values f d) ->
  exists v, In (fst kw, v) d /\ snd kw = f v.
Proof.
  induction d as [|[k v] rest IH]; simpl; [intros []|].
  intros [<-|H].
  - exists v. split; [now left | reflexivity].
  - destruct (IH H) as [v' [Hin E]]. exists v'. split; [now right | assumption].
Qed.

Lemma mapM_pure {A B} (f : A -> B) (l : list A) :
  mapM (fun x => Ok (f x)) l = Ok (map f l).
Proof.
  induction l as [|x l IH]; simpl; [reflexivity | now rewrite IH].
Qed.

(** With keyword names in the slots, the constructor call inside [_map]
    succeeds. *)
Lemma apply_func_nested func (s : Structured) :
  forallb keyword_name (Dict.keys (_structure s)) = true ->
  apply_func func true (VStructured s) =
  (kwargs <- Dict.traverse (apply_func func true) (_structure s) ;;
   Ok (VStructured (mkStructured (root_last kwargs) [] VNone))).
Proof.
  intros Hkw. cbn [apply_func].
  destruct (Dict.traverse (apply_func func true) (_structure s)) as [kw|e] eqn:E;
    [|reflexivity].
  cbn [bind]. rewrite new_Structured_ok; [reflexivity|].
  now rewrite (traverse_keys _ _ _ E).
Qed.

Lemma map_as_apply_func (self : Structured) func :
  fmap VStructured (_map self func true) = apply_func func true (VStructured self).
Proof.
  unfold _map. cbn [apply_func].
  now destruct (Dict.traverse (apply_func func true) (_structure self)).
Qed.

Lemma apply_func_pure (f : value -> value) v :
  constructible v = true ->
  apply_func (fun x => Ok (f x)) true v = Ok (map_leaves f v).
Proof.
  induction v as [ | z | s | l IH | l IH | l IH | d IH | cur IH IHa IHm ]
    using value_nested_ind; intros Hc; try reflexivity.
  - cbn [apply_func map_leaves]. now rewrite mapM_pure.
  - apply constructible_slots in Hc. destruct Hc as [Hkw Hslots].
    rewrite apply_func_nested by assumption.
    rewrite (traverse_ext_in (apply_func (fun x => Ok (f x)) true)
               (fun x => Ok (map_leaves f x))).
    + now rewrite traverse_pure.
    + rewrite Forall_forall in *. intros kv Hin. auto.
Qed.

Lemma map_pure (self : Structured) (f : value -> value) :
  constructible (VStructured self) = true ->
  _map self (fun x => Ok (f x)) true =
  Ok (mkStructured (root_last (Dict.map_values (map_leaves f) (_structure self)))
        [] VNone).
Proof.
  intros Hc. pose proof (apply_func_pure f _ Hc) as H.
  rewrite <- map_as_apply_func in H. cbn [map_leaves] in H.
  destruct (_map self (fun x => Ok (f x)) true);
    unfold fmap, bind in H; inversion H; reflexivity.
Qed.

Lemma constructible_map_leaves (f : value -> value) v :
  (forall x, isinstance_Structured (f x) = false) ->
  constructible v = true -> constructible (map_leaves f v) = true.
Proof.
  intros Hf.
  induction v as [ | z | s | l IH | l IH | l IH | d IH | cur IH IHa IHm ]
    using value_nested_ind; intros Hc;
    try (apply not_Structured_constructible; apply Hf); try reflexivity.
  apply constructible_slots in Hc. destruct Hc as [Hkw Hslots].
  cbn [map_leaves]. apply constructible_slots. cbn [_structure]. split.
  - apply keyword_names_root_last. now rewrite keys_map_values.
  - rewrite Forall_forall in *. intros kv Hin.
    apply in_root_last, in_map_values in Hin. destruct Hin as [v [Hin ->]].
    apply (IH _ Hin). apply (Hslots _ Hin).
Qed.

Lemma map_values_compose {U V W} (f : U -> V) (g : V -> W) (d : list (string * U)) :
  Dict.map_values g (Dict.map_values f d) = Dict.map_values (fun x => g (f x)) d.
Proof.
  induction d as [|[k v] rest IH]; simpl; [reflexivity | now rewrite IH].
Qed.

Lemma map_values_ext_in {V W} (f g : V -> W) (d : list (string * V)) :
  Forall (fun kv => f (snd kv) = g (snd kv)) d ->
  Dict.map_values f d = Dict.map_values g d.
Proof.
  induction 1 as [|[k v] rest Hx _ IH]; simpl; [reflexivity|].
  simpl in Hx. now rewrite Hx, IH.
Qed.

Lemma map_leaves_compose (f g : value -> value) v :
  (forall x, isinstance_Structured (f x) = false
             /\ isinstance_tuple (f x) = false) ->
  map_leaves g (map_leaves f v) = map_leaves (fun x => g (f x)) v.
Proof.
  intros Hf.
  assert (Hleaf : forall x, map_leaves g (f x) = g (f x)).
  { intros x. destruct (Hf x) as [H1 H2].
    destruct (f x); try reflexivity; discriminate. }
  induction v as [ | z | s | l IH | l IH | l IH | d IH | cur IH IHa IHm ]
    using value_nested_ind; try (cbn [map_leaves]; apply Hleaf).
  - cbn [map_leaves]. now rewrite map_map.
  - cbn [map_leaves _structure].
    rewrite <- root_last_map_values, root_last_idempotent, map_values_compose.
    now rewrite (map_values_ext_in _ _ _ IH).
Qed.

(** C6, as the code has it.  When every output of [f] is a leaf, neither a
    tuple nor a container, mapping [f] and then [g] returns the very
    container that mapping their composition returns, whatever [g]
    returns. *)
Theorem map_composition :
  forall (self : Structured) (f g : value -> value),
    constructible (VStructured self) = true ->
    (forall x, isinstance_Structured (f x) = false
               /\ isinstance_tuple (f x) = false) ->
    exists c,
      (mapped <- _map self (fun x => Ok (f x)) true ;;
       _map mapped (fun x => Ok (g x)) true) = Ok c
      /\ _map self (fun x => Ok (g (f x))) true = Ok c.
Proof.
  intros self f g Hc Hf.
  pose proof (constructible_map_leaves f (VStructured self)
                (fun x => proj1 (Hf x)) Hc) as Hc'.
  cbn [map_leaves] in Hc'.
  rewrite (map_pure self f Hc). cbn [bind].
  rewrite (map_pure _ g Hc'), (map_pure self (fun x => g (f x)) Hc).
  eexists. split; [|reflexivity].
  pose proof (map_leaves_compose f g (VStructured self) Hf) as E.
  cbn [map_leaves _structure] in E. cbn [_structure].
  injection E as E'. now rewrite E'.
Qed.

Lemma map_composition_witness :
  exists c,
    (mapped <- _map (mkStructured [("root", VTuple [VInt 1; VInt 2]);
                                   ("b", VStructured
                                           (mkStructured [("x", VInt 3)] [] VNone))]
                       [] VNone)
                 (fun x => Ok (VList [x])) true ;;
     _map mapped (fun x => Ok (VTuple [x; x])) true) = Ok c
    /\ _map (mkStructured [("root", VTuple [VInt 1; VInt 2]);
                           ("b", VStructured
                                   (mkStructured [("x", VInt 3)] [] VNone))]
               [] VNone)
         (fun x => Ok (VTuple [VList [x]; VList [x]])) true = Ok c.
Proof.
  apply (map_composition
           (mkStructured [("root", VTuple [VInt 1; VInt 2]);
                          ("b", VStructured
                                  (mkStructured [("x", VInt 3)] [] VNone))]
              [] VNone)
           (fun x => VList [x]) (fun x => VTuple [x; x])).
  - reflexivity.
  - intros x. split; reflexivity.
Defined.

(** With [f] returning a pair and [g] constant, [g(f(x))] is a leaf for
    every [x], and yet mapping [f] then [g] over [Structured(a=1)] gives
    the slot [a] the pair (0, 0), where mapping the composition gives 0. *)
Lemma tuple_output_breaks_composition :
  let f := fun x => VTuple [x; x] in
  let g := fun _ : value => VInt 0 in
  let self := mkStructured [("a", VInt 1)] [] VNone in
  (forall x, isinstance_Structured (g (f x)) = false
             /\ isinstance_tuple (g (f x)) = false)
  /\ exists c c',
      (mapped <- _map self (fun x => Ok (f x)) true ;;
       _map mapped (fun x => Ok (g x)) true) = Ok c
      /\ _map self (fun x => Ok (g (f x))) true = Ok c'
      /\ Dict.get "a" (_structure c) = Some (VTuple [VInt 0; VInt 0])
      /\ Dict.get "a" (_structure c') = Some (VInt 0)
      /\ __eq__ c (VStructured c') = false.
Proof.
  intros f g self. split; [intros x; split; reflexivity|].
  do 2 eexists. repeat split.
Qed.

(** ** Attribute read *)

Lemma mapM_Forall2 {A B} (f : A -> result B) l l' :
  mapM f l = Ok l' <-> Forall2 (fun x y => f x = Ok y) l l'.
Proof.
  revert l'. induction l as [|x l IH]; simpl; intros l'.
  - split; [intros H; inversion H; constructor | intros H; now inversion H].
  - destruct (f x) as [y|e] eqn:Ex; simpl.
    + destruct (mapM f l) as [ys|e] eqn:El; simpl.
      * split.
        -- intros H. inversion H; subst. constructor; [assumption | now apply IH].
        -- intros H. inversion H as [|? y' ? l'' Hy Hl]; subst.
           apply IH in Hl. congruence.
      * split; [discriminate|].
        intros H. inversion H as [|? y' ? l'' Hy Hl]; subst.
        apply IH in Hl. discriminate.
    + split; [discriminate|].
      intros H. inversion H; subst. congruence.
Qed.

Lemma traverse_Forall2 {V W} (f : V -> result W) (d : list (string * V)) d' :
  Dict.traverse f d = Ok d' <->
  Forall2 (fun kv kv' => fst kv = fst kv' /\ f (snd kv) = Ok (snd kv')) d d'.
Proof.
  revert d'. induction d as [|[k v] rest IH]; simpl; intros d'.
  - split; [intros H; inversion H; constructor | intros H; now inversion H].
  - destruct (f v) as [w|e] eqn:Ev; simpl.
    + destruct (Dict.traverse f rest) as [ws|e] eqn:Er; simpl.
      * split.
        -- intros H. inversion H; subst.
           constructor; [now split | now apply IH].
        -- intros H. inversion H as [|? [k' w'] ? d'' [Hk Hw] Hr]; subst.
           simpl in *. subst. apply IH in Hr. congruence.
      * split; [discriminate|].
        intros H. inversion H as [|? [k' w'] ? d'' [Hk Hw] Hr]; subst.
        apply IH in Hr. discriminate.
    + split; [discriminate|].
      intros H. inversion H as [|? [k' w'] ? d'' [Hk Hw] Hr]; subst.
      simpl in Hw. congruence.
Qed.

Lemma Forall2_slots_iff {V W} (R1 R2 : V -> W -> Prop)
  (d : list (string * V)) (d' : list (string * W)) :
  Forall (fun kv => forall y, R1 (snd kv) y <-> R2 (snd kv) y) d ->
  Forall2 (fun kv kv' => fst kv = fst kv' /\ R1 (snd kv) (snd kv')) d d' <->
  Forall2 (fun kv kv' => fst kv = fst kv' /\ R2 (snd kv) (snd kv')) d d'.
Proof.
  intros H. revert d'.
  induction H as [|kv rest Hx _ IH]; intros d'.
  - split; intros H; inversion H; constructor.
  - split; intros H; inversion H as [|? kv' ? d'' [Hk Hr] Hrest]; subst;
      (constructor; [split; [assumption | now apply Hx] | now apply IH]).
Qed.

Lemma Forall2_slots_get {V W} (R : V -> W -> Prop)
  (d : list (string * V)) (d' : list (string * W)) k :
  Forall2 (fun kv kv' => fst kv = fst kv' /\ R (snd kv) (snd kv')) d d' ->
  match Dict.get k d, Dict.get k d' with
  | Some v, Some v' => R v v'
  | None, None => True
  | _, _ => False
  end.
Proof.
  induction 1 as [|[k1 v1] [k2 v2] rest rest' [Hk Hr] _ IH]; simpl; [trivial|].
  simpl in Hk, Hr. subst k2.
  destruct (String.eqb k1 k); [assumption | exact IH].
Qed.

Lemma py_eq_str_r a s : py_eq a (VStr s) = true <-> a = VStr s.
Proof.
  destruct a; simpl; split; try congruence.
  - intros H. apply String.eqb_eq in H. now subst.
  - intros H. inversion H. apply String.eqb_refl.
Qed.

Lemma mapped_attr_In attr (attrs : list value) :
  existsb (fun a => py_eq a (VStr attr)) attrs = true <-> In (VStr attr) attrs.
Proof.
  rewrite existsb_exists. split.
  - intros [a [Hin Ha]]. apply py_eq_str_r in Ha. now subst.
  - intros Hin. exists (VStr attr). split; [assumption | now apply py_eq_str_r].
Qed.

Lemma apply_func_projected getattr attr v :
  constructible v = true ->
  forall r, apply_func (fun x => getattr x attr) true v = Ok r
            <-> projected getattr attr v r.
Proof.
  induction v as [ | z | s | l IH | l IH | l IH | d IH | cur IH IHa IHm ]
    using value_nested_ind; intros Hc r.
  1-3, 5-7:
    (cbn [apply_func]; split;
     [ intros H; now constructor
     | intros H; inversion H; subst; assumption ]).
  - cbn [apply_func]. split.
    + intros H. destruct (mapM (fun x => getattr x attr) l) as [l'|e] eqn:E;
        simpl in H; [|discriminate].
      inversion H; subst. apply projected_group. now apply mapM_Forall2.
    + intros H. inversion H as [? ? ? Ht| ? l' Hl |]; subst; [discriminate|].
      apply mapM_Forall2 in Hl. now rewrite Hl.
  - apply constructible_slots in Hc. destruct Hc as [Hkw Hslots].
    rewrite apply_func_nested by assumption.
    assert (Hiff : Forall (fun kv => forall y,
                     apply_func (fun x => getattr x attr) true (snd kv) = Ok y
                     <-> projected getattr attr (snd kv) y) (_structure cur)).
    { rewrite Forall_forall in *. intros kv Hin y. apply (IH _ Hin), (Hslots _ Hin). }
    pose proof (fun d' =>
      @Forall2_slots_iff _ _
        (fun v y => apply_func (fun x => getattr x attr) true v = Ok y)
        (projected getattr attr) (_structure cur) d' Hiff) as Hconv.
    split.
    + intros H.
      destruct (Dict.traverse (apply_func (fun x => getattr x attr) true)
                  (_structure cur)) as [kw|e] eqn:E; simpl in H; [|discriminate].
      inversion H; subst. apply projected_nested.
      apply Hconv. now apply traverse_Forall2.
    + intros H. inversion H as [? ? Hs| | ? slots Hall]; subst; [discriminate|].
      apply Hconv in Hall.
      apply traverse_Forall2 in Hall. now rewrite Hall.
Qed.

(** Attribute read of a name that does not start with an underscore, on
    containers the constructor can rebuild.
    A name that is a slot returns the stored value as it is.  Otherwise a
    mapped attribute returns exactly the projections of the container: a
    new container, with no mapped attributes or metadata of its own, the
    same slot names, and in each slot the projection of what the original
    holds there; the read succeeds whenever every leaf has the attribute.
    Otherwise the read raises [AttributeError]. *)
Theorem getattr_cascade :
  forall (getattr : value -> string -> result value) (self : Structured)
         (attr : string),
    startswith_underscore attr = false ->
    (forall v, Dict.get attr (_structure self) = Some v ->
               __getattr__ getattr self attr = Ok v)
    /\ (Dict.get attr (_structure self) = None ->
        In (VStr attr) (_mapped_attrs self) ->
        constructible (VStructured self) = true ->
        (forall r, __getattr__ getattr self attr = Ok r
                   <-> projected getattr attr (VStructured self) r)
        /\ (forall r, __getattr__ getattr self attr = Ok r ->
              exists c, r = VStructured c
                /\ _mapped_attrs c = [] /\ _metadata c = VNone
                /\ forall k,
                    match Dict.get k (_structure self), Dict.get k (_structure c) with
                    | Some v, Some v' => projected getattr attr v v'
                    | None, None => True
                    | _, _ => False
                    end))
    /\ (Dict.get attr (_structure self) = None ->
        ~ In (VStr attr) (_mapped_attrs self) ->
        __getattr__ getattr self attr = Raise AttributeError).
Proof.
  intros getattr self attr Hu. unfold __getattr__. rewrite Hu.
  split; [|split].
  - intros v Hv. now rewrite Hv.
  - intros Hnone Hin Hc. rewrite Hnone.
    rewrite (proj2 (mapped_attr_In attr (_mapped_attrs self)) Hin).
    rewrite map_as_apply_func.
    pose proof (apply_func_projected getattr attr (VStructured self) Hc) as Hiff.
    split; [exact Hiff|].
    intros r Hr. apply Hiff in Hr.
    inversion Hr as [? ? Hs| | ? slots Hall]; subst; [discriminate|].
    eexists. split; [reflexivity|]. cbn [_structure _mapped_attrs _metadata].
    split; [reflexivity|]. split; [reflexivity|].
    intros k. rewrite get_root_last. now apply Forall2_slots_get.
  - intros Hnone Hnot. rewrite Hnone.
    destruct (existsb (fun a => py_eq a (VStr attr)) (_mapped_attrs self)) eqn:E;
      [|reflexivity].
    apply mapped_attr_In in E. contradiction.
Qed.

Lemma getattr_cascade_witness :
  let self :=
    mkStructured
      [("a", VInt 3); ("b", VTuple [VInt 1; VInt 2]);
       ("n", VStructured (mkStructured [("root", VInt 7)] [] VNone))]
      [VStr "real"] VNone in
  __getattr__ int_getattr self "a" = Ok (VInt 3)
  /\ (forall r, __getattr__ int_getattr self "real" = Ok r
                <-> projected int_getattr "real" (VStructured self) r)
  /\ __getattr__ int_getattr self "imag" = Raise AttributeError.
Proof.
  intros self. split; [|split].
  - apply (proj1 (getattr_cascade int_getattr self "a" eq_refl)). reflexivity.
  - apply (proj1 (proj2 (getattr_cascade int_getattr self "real" eq_refl))).
    + reflexivity.
    + now left.
    + reflexivity.
  - apply (proj2 (proj2 (getattr_cascade int_getattr self "imag" eq_refl))).
    + reflexivity.
    + simpl. intuition discriminate.
Defined.

(** ** Simplification: nested containers *)

Lemma traverse_total {V W} (f : V -> result W) (d : list (string * V)) :
  Forall (fun kv => exists w, f (snd kv) = Ok w) d ->
  exists d', Dict.traverse f d = Ok d'.
Proof.
  induction 1 as [|[k v] rest [w Hw] _ [ws IH]]; simpl.
  - now eexists.
  - simpl in Hw. rewrite Hw, IH. simpl. now eexists.
Qed.

(** On constructible values [_simplify] without [inplace] raises nothing. *)
Lemma simplify_from_total v :
  constructible v = true ->
  forall recurse unwrap self,
    exists out, fst (simplify_from recurse unwrap false self v) = Ok out.
Proof.
  induction v as [ | z | s | l IH | l IH | l IH | d IH | cur IH IHa IHm ]
    using value_nested_ind; intros Hc recurse unwrap self.
  1-7: (simpl; now eexists).
  apply constructible_slots in Hc. destruct Hc as [Hkw Hslots].
  cbn [simplify_from].
  destruct (simplify_guard unwrap cur) eqn:G.
  - destruct (simplify_guard_step _ _ G) as [root [Hroot _]].
    rewrite get_with_get, Hroot. cbn [option_map].
    rewrite Forall_forall in Hslots.
    pose proof (Hslots _ (get_in _ _ _ Hroot)) as Hcr.
    slot_hypothesis IH Hroot. now apply IH.
  - assert (Htr : exists structure,
               (if recurse
                then Dict.traverse
                       (fun x => match x with
                                 | VStructured nested =>
                                     fst (simplify_from true true false nested x)
                                 | _ => Ok x
                                 end) (_structure cur)
                else Ok (_structure cur)) = Ok structure
               /\ Dict.keys structure = Dict.keys (_structure cur)).
    { destruct recurse; [|now eexists].
      destruct (@traverse_total _ _
                  (fun x => match x with
                            | VStructured nested =>
                                fst (simplify_from true true false nested x)
                            | _ => Ok x
                            end) (_structure cur)) as [structure Hs].
      - rewrite Forall_forall in *. intros kv Hin.
        destruct (snd kv) eqn:E; try (now eexists).
        rewrite <- E. specialize (IH _ Hin). specialize (Hslots _ Hin).
        rewrite E in *. now apply IH.
      - exists structure. split; [assumption|]. now apply traverse_keys in Hs. }
    destruct Htr as [structure [Hs Hk]]. rewrite Hs.
    rewrite new_like_ok by now rewrite Hk.
    simpl. now eexists.
Qed.

(** On containers the constructor can rebuild: with [recurse=True] the
    nested containers are simplified with
    [unwrap=True] whatever the [unwrap] of the call: in a container that is
    more than a lone root, a slot that holds a container with the single
    slot root = [v], [v] not a container, holds [v] itself after
    [_simplify(recurse=True, unwrap=False)]. *)
Theorem simplify_recursion_unwraps :
  forall (self nested : Structured) (k : string) (v : value) (inplace : bool),
    constructible (VStructured self) = true ->
    _has_structure self = true ->
    Dict.get k (_structure self) = Some (VStructured nested) ->
    _structure nested = [("root", v)] ->
    isinstance_Structured v = false ->
    exists c,
      fst (_simplify self true false inplace) = Ok (VStructured c)
      /\ Dict.get k (_structure c) = Some v.
Proof.
  intros self nested k v inplace Hc Hs Hk Hn Hv.
  unfold _simplify. rewrite andb_false_r. cbn [simplify_from].
  assert (G : simplify_guard false self = false).
  { unfold simplify_guard. rewrite Hs. cbn [negb]. now rewrite andb_false_r. }
  rewrite G.
  pose proof (proj1 (constructible_slots self) Hc) as [Hkw Hslots].
  set (F := fun x => match x with
                     | VStructured n => fst (simplify_from true true false n x)
                     | _ => Ok x
                     end).
  destruct (@traverse_total _ _ F (_structure self)) as [structure Hst].
  { rewrite Forall_forall in *. intros kv Hin. unfold F.
    destruct (snd kv) eqn:E; try (now eexists).
    rewrite <- E. apply simplify_from_total. now apply Hslots. }
  rewrite Hst.
  assert (Hslot : Dict.get k structure = Some v).
  { pose proof (traverse_get F (_structure self) structure k Hst) as Hg.
    rewrite Hk in Hg. destruct Hg as [w [Hw Hg]]. rewrite Hg. f_equal.
    unfold F in Hw. cbn [simplify_from] in Hw.
    assert (Gn : simplify_guard true nested = true).
    { unfold simplify_guard, _has_root, _has_structure, Dict.contains.
      now rewrite Hn. }
    rewrite Gn, get_with_get, Hn in Hw. cbn [Dict.get] in Hw.
    rewrite String.eqb_refl in Hw. cbn [option_map] in Hw.
    rewrite simplify_from_leaf in Hw by exact Hv. simpl in Hw. congruence. }
  destruct inplace.
  - eexists. split; [reflexivity|]. exact Hslot.
  - rewrite new_like_ok by now rewrite (traverse_keys _ _ _ Hst).
    eexists. split; [reflexivity|]. cbn [_structure].
    now rewrite get_root_last.
Qed.

Lemma simplify_recursion_unwraps_witness :
  exists c,
    fst (_simplify
           (mkStructured
              [("root", VInt 1);
               ("b", VStructured (mkStructured [("root", VInt 5)] [] VNone))]
              [] VNone) true false false) = Ok (VStructured c)
    /\ Dict.get "b" (_structure c) = Some (VInt 5).
Proof.
  apply (simplify_recursion_unwraps
           (mkStructured
              [("root", VInt 1);
               ("b", VStructured (mkStructured [("root", VInt 5)] [] VNone))]
              [] VNone)
           (mkStructured [("root", VInt 5)] [] VNone) "b" (VInt 5) false);
    reflexivity.
Defined.

(** * Further properties of the class *)

(** ** Unique keys *)

Lemma nodupb_NoDup (l : list string) : nodupb l = true <-> NoDup l.
Proof.
  induction l as [|k rest IH]; simpl.
  - split; [constructor | reflexivity].
  - rewrite andb_true_iff, negb_true_iff, IH. split.
    + intros [Hk Hr]. constructor; [|assumption].
      intros Hin. assert (E : existsb (String.eqb k) rest = true).
      { apply existsb_exists. exists k. split; [assumption | apply String.eqb_refl]. }
      congruence.
    + intros H. inversion H as [|? ? Hnot Hr]; subst. split; [|assumption].
      destruct (existsb (String.eqb k) rest) eqn:E; [|reflexivity].
      apply existsb_exists in E. destruct E as [x [Hin Hx]].
      apply String.eqb_eq in Hx. subst. contradiction.
Qed.

Lemma in_get_unique {V} (d : list (string * V)) k v :
  NoDup (Dict.keys d) -> In (k, v) d -> Dict.get k d = Some v.
Proof.
  induction d as [|[k' v'] rest IH]; simpl; intros Hnd Hin; [contradiction|].
  inversion Hnd as [|? ? Hnot Hrest]; subst.
  destruct Hin as [E|Hin].
  - inversion E; subst. now rewrite String.eqb_refl.
  - destruct (String.eqb_spec k' k) as [->|Hne]; [|auto].
    exfalso. apply Hnot. change (In (fst (k, v)) (map fst rest)).
    now apply in_map.
Qed.

Lemma length_remove_unique {V} k (d : list (string * V)) :
  NoDup (Dict.keys d) ->
  List.length d =
  (List.length (Dict.remove k d) + if Dict.contains k d then 1 else 0)%nat.
Proof.
  unfold Dict.contains.
  induction d as [|[k' v'] rest IH]; simpl; intros Hnd; [reflexivity|].
  inversion Hnd as [|? ? Hnot Hrest]; subst.
  destruct (String.eqb_spec k' k) as [->|Hne]; simpl.
  - rewrite remove_absent by assumption. lia.
  - rewrite (IH Hrest). reflexivity.
Qed.

Lemma length_root_last (d : list (string * value)) :
  NoDup (Dict.keys d) -> List.length (root_last d) = List.length d.
Proof.
  intros Hnd. rewrite (length_remove_unique "root" d Hnd).
  unfold root_last, Dict.contains. rewrite length_app.
  now destruct (Dict.get "root" d).
Qed.

(** ** Root-only containers *)

Lemma has_structure_other_key (self : Structured) k :
  In k (Dict.keys (_structure self)) -> k <> "root" -> _has_structure self = true.
Proof.
  intros Hin Hne. destruct (_has_structure self) eqn:E; [reflexivity|].
  exfalso. apply Hne. now apply (no_structure_only_root self E).
Qed.

(** A container has a root and no other structure exactly when its slot
    dictionary is the single entry root. *)
Theorem lone_root_is_single_slot :
  forall self : Structured,
    NoDup (Dict.keys (_structure self)) ->
    (_has_root self = true /\ _has_structure self = false
     <-> exists v, _structure self = [("root", v)]).
Proof.
  intros self Hnd. split.
  - intros [Hr Hs]. pose proof (no_structure_only_root self Hs) as Hk.
    unfold _has_root, Dict.contains in Hr.
    destruct (_structure self) as [|[k v] rest] eqn:E.
    + discriminate Hr.
    + assert (k = "root") by (apply Hk; now left). subst k.
      destruct rest as [|[k' v'] rest'].
      * now exists v.
      * exfalso. assert (k' = "root") by (apply Hk; right; now left). subst k'.
        simpl in Hnd. inversion Hnd as [|? ? Hnot _]. apply Hnot. now left.
  - intros [v E]. unfold _has_root, _has_structure, Dict.contains.
    rewrite E. split; reflexivity.
Qed.

Lemma lone_root_is_single_slot_witness :
  _has_root (mkStructured [("root", VInt 1)] [] VNone) = true
  /\ _has_structure (mkStructured [("root", VInt 1)] [] VNone) = false.
Proof.
  apply (lone_root_is_single_slot (mkStructured [("root", VInt 1)] [] VNone)).
  - repeat constructor. intros [].
  - now exists (VInt 1).
Defined.

(** ** Reading what was stored *)

Lemma getattr_slot getattr (self : Structured) k v :
  startswith_underscore k = false ->
  Dict.get k (_structure self) = Some v ->
  __getattr__ getattr self k = Ok v.
Proof. intros Hu Hk. unfold __getattr__. now rewrite Hu, Hk. Qed.

Lemma getitem_slot (self : Structured) k v :
  _has_structure self = true ->
  startswith_underscore k = false ->
  Dict.get k (_structure self) = Some v ->
  __getitem__ self (VStr k) = Ok v.
Proof.
  intros Hs Hu Hk. unfold __getitem__. cbn [py_getitem].
  rewrite Hs. cbn [negb]. rewrite andb_false_r.
  destruct ((py_eq VNone (VStr k) || py_eq (VStr "root") (VStr k))
            && _has_root self) eqn:E.
  - apply andb_true_iff in E. destruct E as [E _].
    apply names_root_spec in E. destruct E as [E|E]; [discriminate|].
    inversion E; subst. now rewrite Hk.
  - now rewrite Hu, Hk.
Qed.

Lemma getitem_root (self : Structured) key r :
  _has_structure self = true ->
  key = VNone \/ key = VStr "root" ->
  Dict.get "root" (_structure self) = Some r ->
  __getitem__ self key = Ok r.
Proof.
  intros Hs Hkey Hr. unfold __getitem__. cbn [py_getitem].
  rewrite Hs. cbn [negb]. rewrite andb_false_r.
  apply names_root_spec in Hkey. rewrite Hkey.
  assert (H : _has_root self = true) by (apply contains_get; eauto).
  now rewrite H, Hr.
Qed.

Lemma no_underscore_key (d : list (string * value)) k :
  existsb startswith_underscore (Dict.keys d) = false ->
  In k (Dict.keys d) -> startswith_underscore k = false.
Proof.
  intros H Hin. destruct (startswith_underscore k) eqn:E; [|reflexivity].
  assert (existsb startswith_underscore (Dict.keys d) = true)
    by (apply existsb_exists; eauto).
  congruence.
Qed.

(** ** Writing slots *)

(** Bracket write succeeds exactly for keys that are identifiers without a
    leading underscore, and then does what attribute write does.
    Attribute write takes any name without a leading underscore,
    identifier or not. *)
Theorem bracket_write_is_attribute_write :
  forall (isidentifier : string -> bool)
         (object_setattr : Structured -> string -> value -> result Structured)
         (self : Structured) (k : string) (v : value),
    ((exists s', __setitem__ isidentifier self (VStr k) v = Ok s')
     <-> isidentifier k = true /\ startswith_underscore k = false)
    /\ (forall s', __setitem__ isidentifier self (VStr k) v = Ok s' ->
                   __setattr__ object_setattr self k v = Ok s')
    /\ (startswith_underscore k = false ->
        exists s', __setattr__ object_setattr self k v = Ok s'
                   /\ Dict.get k (_structure s') = Some v).
Proof.
  intros isidentifier object_setattr self k v. unfold __setitem__, __setattr__.
  split; [|split].
  - destruct (isidentifier k), (startswith_underscore k); cbn [negb]; split;
      try (intros [s' H]; discriminate H);
      try (intros [H1 H2]; discriminate).
    + intros _. now split.
    + intros _. now eexists.
  - intros s'.
    destruct (isidentifier k), (startswith_underscore k); cbn [negb];
      intros H; (discriminate H || exact H).
  - intros Hu. rewrite Hu. eexists. split; [reflexivity|].
    cbn [set_structure _structure]. unfold _prepare_item.
    rewrite get_set. now rewrite String.eqb_refl.
Qed.

Lemma bracket_write_is_attribute_write_witness :
  (exists s', __setitem__ ascii_isidentifier (mkStructured [] [] VNone)
                (VStr "b2") (VInt 1) = Ok s')
  /\ exists s', __setattr__ (fun _ _ _ => Raise AttributeError)
                  (mkStructured [] [] VNone) "a b" (VInt 1) = Ok s'
                /\ Dict.get "a b" (_structure s') = Some (VInt 1).
Proof.
  pose proof (bracket_write_is_attribute_write ascii_isidentifier
                (fun _ _ _ => Raise AttributeError)
                (mkStructured [] [] VNone) "b2" (VInt 1)) as [H _].
  pose proof (bracket_write_is_attribute_write ascii_isidentifier
                (fun _ _ _ => Raise AttributeError)
                (mkStructured [] [] VNone) "a b" (VInt 1)) as [_ [_ H']].
  split; [apply H; now split | apply H'; reflexivity].
Defined.

(** After a bracket write the key reads back the value written, by
    attribute and, when the container is more than a lone root, by
    bracket; the other slots, the mapped attributes and the metadata are
    what they were; a key that was present keeps its place and a new one
    goes last. *)
Theorem bracket_write_read_back :
  forall (isidentifier : string -> bool)
         (getattr : value -> string -> result value)
         (self s' : Structured) (k : string) (v : value),
    __setitem__ isidentifier self (VStr k) v = Ok s' ->
    __getattr__ getattr s' k = Ok v
    /\ (_has_structure s' = true -> __getitem__ s' (VStr k) = Ok v)
    /\ (forall k', k' <> k ->
          Dict.get k' (_structure s') = Dict.get k' (_structure self))
    /\ Dict.keys (_structure s')
       = (if Dict.contains k (_structure self)
          then Dict.keys (_structure self)
          else Dict.keys (_structure self) ++ [k])
    /\ _mapped_attrs s' = _mapped_attrs self
    /\ _metadata s' = _metadata self.
Proof.
  intros isidentifier getattr self s' k v H. unfold __setitem__ in H.
  destruct (isidentifier k); cbn [negb] in H; [|discriminate].
  destruct (startswith_underscore k) eqn:Hu; [discriminate|].
  inversion H; subst s'. clear H. cbn [set_structure _structure _mapped_attrs _metadata].
  unfold _prepare_item.
  assert (Hk : Dict.get k (Dict.set k v (_structure self)) = Some v)
    by (rewrite get_set; now rewrite String.eqb_refl).
  split; [now apply getattr_slot|].
  split; [intros Hs; now apply getitem_slot|].
  split; [|split; [apply keys_set | split; reflexivity]].
  intros k' Hne. rewrite get_set.
  destruct (String.eqb_spec k k'); [congruence | reflexivity].
Qed.

Lemma bracket_write_read_back_witness :
  exists s',
    __setitem__ ascii_isidentifier
      (mkStructured [("a", VInt 1); ("b", VInt 2)] [] VNone)
      (VStr "a") (VInt 9) = Ok s'
    /\ __getitem__ s' (VStr "a") = Ok (VInt 9)
    /\ Dict.keys (_structure s') = ["a"; "b"].
Proof.
  eexists. split; [reflexivity|].
  destruct (bracket_write_read_back ascii_isidentifier int_getattr
              (mkStructured [("a", VInt 1); ("b", VInt 2)] [] VNone)
              _ "a" (VInt 9) eq_refl) as [_ [Hb [_ [Hk _]]]].
  split; [apply Hb; reflexivity | exact Hk].
Defined.

(** ** Iteration and length *)

Lemma length_non_root_values (d : list (string * value)) :
  List.length (non_root_values d) = List.length (Dict.remove "root" d).
Proof.
  induction d as [|[k v] rest IH]; simpl; [reflexivity|].
  destruct (negb (String.eqb k "root")); simpl; now rewrite IH.
Qed.

(** A container that is more than a lone root yields one item per slot. *)
Theorem iteration_one_item_per_slot :
  forall self : Structured,
    NoDup (Dict.keys (_structure self)) ->
    _has_structure self = true ->
    List.length (__iter__ self) = __len__ self.
Proof.
  intros self Hnd Hs. unfold __iter__, __len__. rewrite Hs. cbn [negb andb].
  rewrite (length_remove_unique "root" (_structure self) Hnd).
  unfold Dict.contains.
  destruct (Dict.get "root" (_structure self));
    [rewrite length_app|]; rewrite length_non_root_values; simpl; lia.
Qed.

Lemma iteration_one_item_per_slot_witness :
  List.length (__iter__ (mkStructured
                           [("a", VInt 1); ("root", VTuple [VInt 1; VInt 2])]
                           [] VNone)) = 2%nat.
Proof.
  apply (iteration_one_item_per_slot
           (mkStructured [("a", VInt 1); ("root", VTuple [VInt 1; VInt 2])]
              [] VNone)).
  - repeat constructor; simpl; intuition discriminate.
  - reflexivity.
Defined.

(** ** Equality *)

Lemma well_keyed_slots_Forall (d : list (string * value)) :
  (fix go (d : list (string * value)) : bool :=
     match d with
     | [] => true
     | (_, x) :: rest => well_keyed x && go rest
     end) d = true
  <-> Forall (fun kv => well_keyed (snd kv) = true) d.
Proof.
  induction d as [|[k v] rest IH].
  - split; [constructor | reflexivity].
  - rewrite andb_true_iff, IH. split.
    + intros [Hv Hr]. now constructor.
    + intros H. inversion H; subst. now split.
Qed.

Lemma well_keyed_Structured (s : Structured) :
  well_keyed (VStructured s) = true <->
  NoDup (Dict.keys (_structure s))
  /\ Forall (fun kv => well_keyed (snd kv) = true) (_structure s).
Proof.
  cbn [well_keyed]. now rewrite andb_true_iff, nodupb_NoDup, well_keyed_slots_Forall.
Qed.

Lemma well_keyed_Dict (d : list (string * value)) :
  well_keyed (VDict d) = true <->
  NoDup (Dict.keys d) /\ Forall (fun kv => well_keyed (snd kv) = true) d.
Proof.
  cbn [well_keyed]. now rewrite andb_true_iff, nodupb_NoDup, well_keyed_slots_Forall.
Qed.

Lemma eqb_with_intro {V W} (eqv : V -> W -> bool)
  (d : list (string * V)) (e : list (string * W)) :
  List.length d = List.length e ->
  (forall k v, In (k, v) d ->
     exists w, Dict.get k e = Some w /\ eqv v w = true) ->
  Dict.eqb_with eqv d e = true.
Proof.
  intros Hlen Hall. unfold Dict.eqb_with.
  rewrite Hlen, Nat.eqb_refl. cbn [andb]. clear Hlen.
  induction d as [|[k v] rest IH]; [reflexivity|].
  destruct (Hall k v (or_introl eq_refl)) as [w [Hw Hv]].
  rewrite Hw, Hv. cbn [andb]. apply IH. intros k' v' Hin. apply Hall. now right.
Qed.

Lemma all2_refl {A} (eqv : A -> A -> bool) (l : list A) :
  Forall (fun x => eqv x x = true) l -> all2 eqv l l = true.
Proof.
  induction 1 as [|x l Hx _ IH]; simpl; [reflexivity | now rewrite Hx, IH].
Qed.

Lemma subset_with_refl {A} (eqv : A -> A -> bool) (l m : list A) :
  Forall (fun x => eqv x x = true) l -> incl l m -> subset_with eqv m l = true.
Proof.
  induction 1 as [|x l Hx _ IH]; simpl; intros Hincl; [reflexivity|].
  rewrite IH by (intros y Hy; apply Hincl; now right).
  rewrite andb_true_r. apply existsb_exists. exists x.
  split; [apply Hincl; now left | assumption].
Qed.

Lemma covers_with_refl {A} (eqv : A -> A -> bool) (l : list A) :
  Forall (fun x => eqv x x = true) l -> covers_with eqv l l = true.
Proof.
  intros H. unfold covers_with. apply forallb_forall. intros y Hy.
  rewrite Forall_forall in H. pose proof (H y Hy) as Hyy. clear H.
  induction l as [|x l IH]; [contradiction|].
  destruct Hy as [->|Hy]; [now rewrite Hyy | rewrite (IH Hy); apply orb_true_r].
Qed.

Lemma eqb_with_refl (eqv : value -> value -> bool) (d : list (string * value)) :
  NoDup (Dict.keys d) ->
  Forall (fun kv => eqv (snd kv) (snd kv) = true) d ->
  Dict.eqb_with eqv d d = true.
Proof.
  intros Hnd Hall. apply eqb_with_intro; [reflexivity|].
  intros k v Hin. exists v. split; [now apply in_get_unique|].
  rewrite Forall_forall in Hall. exact (Hall _ Hin).
Qed.

(** [v == v] holds for every well-keyed value. *)
Lemma py_eq_refl v : well_keyed v = true -> py_eq v v = true.
Proof.
  induction v as [ | z | s | l IH | l IH | l IH | d IH | cur IH IHa IHm ]
    using value_nested_ind; intros Hw.
  - reflexivity.
  - apply Z.eqb_refl.
  - apply String.eqb_refl.
  - cbn [py_eq]. apply all2_refl. cbn [well_keyed] in Hw.
    rewrite forallb_forall in Hw. rewrite Forall_forall in *. auto.
  - cbn [py_eq]. apply all2_refl. cbn [well_keyed] in Hw.
    rewrite forallb_forall in Hw. rewrite Forall_forall in *. auto.
  - cbn [py_eq]. cbn [well_keyed] in Hw. rewrite forallb_forall in Hw.
    assert (H : Forall (fun x => py_eq x x = true) l)
      by (rewrite Forall_forall in *; auto).
    rewrite subset_with_refl by (auto using incl_refl). now apply covers_with_refl.
  - cbn [py_eq]. apply well_keyed_Dict in Hw. destruct Hw as [Hnd Hv].
    apply eqb_with_refl; [assumption|].
    rewrite Forall_forall in *. auto.
  - cbn [py_eq]. apply well_keyed_Structured in Hw. destruct Hw as [Hnd Hv].
    apply eqb_with_refl; [assumption|].
    rewrite Forall_forall in *. auto.
Qed.

Lemma eqb_with_permuted (d e : list (string * value)) :
  NoDup (Dict.keys d) ->
  Forall (fun kv => py_eq (snd kv) (snd kv) = true) d ->
  Permutation d e ->
  Dict.eqb_with py_eq d e = true /\ Dict.eqb_with py_eq e d = true.
Proof.
  intros Hnd Hall Hperm.
  assert (Hnd' : NoDup (Dict.keys e)).
  { unfold Dict.keys. eapply Permutation_NoDup; [|exact Hnd].
    now apply Permutation_map. }
  rewrite Forall_forall in Hall.
  split; apply eqb_with_intro.
  - now apply Permutation_length.
  - intros k v Hin. exists v. split; [|exact (Hall _ Hin)].
    apply in_get_unique; [assumption|]. eapply Permutation_in; eauto.
  - symmetry. now apply Permutation_length.
  - intros k v Hin. exists v.
    assert (Hin' : In (k, v) d)
      by (eapply Permutation_in; [symmetry; exact Hperm | exact Hin]).
    split; [now apply in_get_unique | exact (Hall _ Hin')].
Qed.

(** Two containers that hold the same slots compare equal, in both
    directions, whatever the order of the slots and whatever their mapped
    attributes and metadata. *)
Theorem eq_ignores_slot_order :
  forall self other : Structured,
    well_keyed (VStructured self) = true ->
    Permutation (_structure self) (_structure other) ->
    __eq__ self (VStructured other) = true
    /\ __eq__ other (VStructured self) = true.
Proof.
  intros self other Hw Hperm. apply well_keyed_Structured in Hw.
  destruct Hw as [Hnd Hv]. unfold __eq__. apply eqb_with_permuted; try assumption.
  rewrite Forall_forall in *. intros kv Hin. apply py_eq_refl. auto.
Qed.

Lemma eq_ignores_slot_order_witness :
  __eq__ (mkStructured [("a", VInt 1); ("root", VTuple [VInt 2])] [] VNone)
    (VStructured (mkStructured [("root", VTuple [VInt 2]); ("a", VInt 1)]
                    [VStr "x"] (VInt 7))) = true
  /\ __eq__ (mkStructured [("root", VTuple [VInt 2]); ("a", VInt 1)]
               [VStr "x"] (VInt 7))
       (VStructured (mkStructured [("a", VInt 1); ("root", VTuple [VInt 2])]
                       [] VNone)) = true.
Proof.
  apply eq_ignores_slot_order; [reflexivity | apply perm_swap].
Defined.

(** ** The dictionary form *)

Lemma to_dict_shallow (self : Structured) : _to_dict self false = _structure self.
Proof.
  unfold _to_dict. induction (_structure self) as [|[k v] rest IH]; simpl.
  - reflexivity.
  - rewrite IH. now destruct v.
Qed.

Lemma permutation_root_last (d : list (string * value)) :
  NoDup (Dict.keys d) -> Permutation d (root_last d).
Proof.
  unfold root_last.
  induction d as [|[k v] rest IH]; simpl; intros Hnd; [constructor|].
  inversion Hnd as [|? ? Hnot Hrest]; subst.
  destruct (String.eqb_spec k "root") as [->|Hne]; simpl.
  - rewrite remove_absent by assumption. apply Permutation_cons_append.
  - apply perm_skip. now apply IH.
Qed.

(** [_to_dict] keeps the slot names in their order.  Without recursion it
    is the slot dictionary itself.  With recursion every slot that holds a
    container holds that container's own recursive dictionary instead and
    the other slots are untouched, so that no slot of the result holds a
    container. *)
Theorem to_dict_shape :
  forall self : Structured,
    (forall recurse, Dict.keys (_to_dict self recurse) = Dict.keys (_structure self))
    /\ _to_dict self false = _structure self
    /\ (forall k v, Dict.get k (_structure self) = Some v ->
          Dict.get k (_to_dict self true)
          = Some match v with
                 | VStructured nested => VDict (_to_dict nested true)
                 | _ => v
                 end)
    /\ (forall k v, Dict.get k (_to_dict self true) = Some v ->
          isinstance_Structured v = false).
Proof.
  intros self.
  assert (Hget : forall k v, Dict.get k (_structure self) = Some v ->
            Dict.get k (_to_dict self true)
            = Some match v with
                   | VStructured nested => VDict (_to_dict nested true)
                   | _ => v
                   end).
  { intros k v Hk. unfold _to_dict at 1. rewrite get_map_values, Hk.
    now destruct v. }
  split; [|split; [|split]].
  - intros recurse. apply keys_map_values.
  - apply to_dict_shallow.
  - exact Hget.
  - intros k v Hk.
    destruct (Dict.get k (_structure self)) as [x|] eqn:Ex.
    + rewrite (Hget k x Ex) in Hk. inversion Hk. now destruct x.
    + unfold _to_dict in Hk. rewrite get_map_values, Ex in Hk. discriminate.
Qed.

Lemma to_dict_shape_witness :
  Dict.get "n" (_to_dict
                  (mkStructured
                     [("n", VStructured (mkStructured [("x", VInt 1)] [] VNone))]
                     [] VNone) true)
  = Some (VDict [("x", VInt 1)]).
Proof.
  exact (proj1 (proj2 (proj2 (to_dict_shape
           (mkStructured
              [("n", VStructured (mkStructured [("x", VInt 1)] [] VNone))]
              [] VNone))))
           "n" _ eq_refl).
Defined.

(** The constructor applied to [_to_dict(recurse=False)] gives back a
    container equal to the original, in both directions; the mapped
    attributes and the metadata are not carried over. *)
Theorem to_dict_constructor_round_trip :
  forall self : Structured,
    forallb keyword_name (Dict.keys (_structure self)) = true ->
    well_keyed (VStructured self) = true ->
    exists again,
      new_Structured (_to_dict self false) = Ok again
      /\ __eq__ again (VStructured self) = true
      /\ __eq__ self (VStructured again) = true
      /\ _mapped_attrs again = [] /\ _metadata again = VNone.
Proof.
  intros self Hkw Hw. rewrite to_dict_shallow, (new_Structured_ok _ Hkw).
  eexists. split; [reflexivity|].
  apply well_keyed_Structured in Hw. destruct Hw as [Hnd Hv].
  destruct (eqb_with_permuted (_structure self) (root_last (_structure self)))
    as [H1 H2]; try assumption.
  - rewrite Forall_forall in *. intros kv Hin. apply py_eq_refl. auto.
  - now apply permutation_root_last.
  - unfold __eq__. cbn [_structure _mapped_attrs _metadata]. auto.
Qed.

Lemma to_dict_constructor_round_trip_witness :
  exists again,
    new_Structured
      (_to_dict (mkStructured [("root", VInt 0); ("b", VList [VInt 1])]
                   [VStr "x"] VNone) false) = Ok again
    /\ __eq__ again
         (VStructured (mkStructured [("root", VInt 0); ("b", VList [VInt 1])]
                         [VStr "x"] VNone)) = true
    /\ __eq__ (mkStructured [("root", VInt 0); ("b", VList [VInt 1])]
                 [VStr "x"] VNone) (VStructured again) = true
    /\ _mapped_attrs again = [] /\ _metadata again = VNone.
Proof.
  apply to_dict_constructor_round_trip; reflexivity.
Defined.

(** ** More on mapping *)

Lemma is_root_singleton_ext (l l' : list string) :
  (forall k, In k l <-> In k l') ->
  is_root_singleton l = is_root_singleton l'.
Proof.
  intros H.
  assert (Hall : forallb (String.eqb "root") l = forallb (String.eqb "root") l').
  { apply eq_true_iff_eq. rewrite !forallb_forall.
    split; intros Hx k Hk; apply Hx, H, Hk. }
  unfold is_root_singleton. destruct l as [|x l], l' as [|y l'];
    try reflexivity; try exact Hall.
  - exfalso. apply (H y). now left.
  - exfalso. apply (H x). now left.
Qed.

Lemma flags_root_last (d : list (string * value)) attrs md attrs' md' :
  _has_root (mkStructured (root_last d) attrs md)
  = _has_root (mkStructured d attrs' md')
  /\ _has_structure (mkStructured (root_last d) attrs md)
     = _has_structure (mkStructured d attrs' md').
Proof.
  unfold _has_root, _has_structure, Dict.contains. cbn [_structure].
  rewrite get_root_last. split; [reflexivity|]. f_equal.
  apply is_root_singleton_ext. intros k. apply keys_root_last_in.
Qed.

Lemma flags_same_keys (s t : Structured) :
  Dict.keys (_structure s) = Dict.keys (_structure t) ->
  _has_root s = _has_root t /\ _has_structure s = _has_structure t.
Proof.
  intros E. unfold _has_root, _has_structure. rewrite E. split; [|reflexivity].
  unfold Dict.contains.
  destruct (Dict.get "root" (_structure s)) eqn:Es,
           (Dict.get "root" (_structure t)) eqn:Et; try reflexivity.
  - apply get_in_keys in Es. rewrite E in Es.
    apply get_none_not_in in Et. contradiction.
  - apply get_in_keys in Et. rewrite <- E in Et.
    apply get_none_not_in in Es. contradiction.
Qed.

Lemma length_keys {V} (d : list (string * V)) :
  List.length (Dict.keys d) = List.length d.
Proof. apply length_map. Qed.

(** Whatever the function and the recursion flag, a map that returns gives
    a container of the same shape: as many slots, under the same names,
    those other than root in the same order, with a root and with
    structure exactly when the original has them.  It has no mapped
    attributes and no metadata. *)
Theorem map_keeps_shape :
  forall (self c : Structured) (func : value -> result value) (recurse : bool),
    forallb keyword_name (Dict.keys (_structure self)) = true ->
    NoDup (Dict.keys (_structure self)) ->
    _map self func recurse = Ok c ->
    __len__ c = __len__ self
    /\ (forall k, Dict.contains k (_structure c) = Dict.contains k (_structure self))
    /\ Dict.keys (Dict.remove "root" (_structure c))
       = Dict.keys (Dict.remove "root" (_structure self))
    /\ _has_root c = _has_root self
    /\ _has_structure c = _has_structure self
    /\ _mapped_attrs c = [] /\ _metadata c = VNone.
Proof.
  intros self c func recurse Hkw Hnd H. unfold _map in H.
  destruct (Dict.traverse (apply_func func recurse) (_structure self))
    as [kw|e] eqn:E; cbn [bind] in H; [|discriminate].
  pose proof (traverse_keys _ _ _ E) as Hkeys.
  rewrite new_Structured_ok in H by now rewrite Hkeys.
  inversion H; subst c. clear H.
  destruct (flags_root_last kw [] VNone [] VNone) as [Hr Hs].
  destruct (flags_same_keys (mkStructured kw [] VNone) self Hkeys) as [Hr' Hs'].
  split; [|split; [|split; [|split; [|split; [|split; reflexivity]]]]].
  - unfold __len__. cbn [_structure].
    rewrite length_root_last by now rewrite Hkeys.
    now rewrite <- (length_keys kw), Hkeys, length_keys.
  - intros k. unfold Dict.contains. cbn [_structure]. rewrite get_root_last.
    destruct (Dict.get k kw) eqn:E1, (Dict.get k (_structure self)) eqn:E2;
      try reflexivity.
    + apply get_in_keys in E1. rewrite Hkeys in E1.
      apply get_none_not_in in E2. contradiction.
    + apply get_in_keys in E2. rewrite <- Hkeys in E2.
      apply get_none_not_in in E1. contradiction.
  - cbn [_structure]. now rewrite remove_root_last, !keys_remove, Hkeys.
  - now rewrite Hr, Hr'.
  - now rewrite Hs, Hs'.
Qed.

Lemma map_keeps_shape_witness :
  let c := mkStructured
             [("b", VTuple [VList [VInt 2]; VList [VInt 3]]);
              ("root", VList [VInt 1])] [] VNone in
  __len__ c = 2%nat /\ _has_root c = true /\ _mapped_attrs c = [].
Proof.
  intros c.
  destruct (map_keeps_shape
              (mkStructured [("root", VInt 1); ("b", VTuple [VInt 2; VInt 3])]
                 [VStr "real"] (VInt 9)) c (fun x => Ok (VList [x])) false)
    as [Hl [_ [_ [Hr [_ [Ha _]]]]]].
  - reflexivity.
  - repeat constructor; simpl; intuition discriminate.
  - reflexivity.
  - split; [exact Hl | split; [exact Hr | exact Ha]].
Defined.

(** When no slot holds a container the recursion flag of [_map] makes no
    difference. *)
Theorem map_recurse_flag_without_nesting :
  forall (self : Structured) (func : value -> result value),
    Forall (fun kv => isinstance_Structured (snd kv) = false) (_structure self) ->
    _map self func false = _map self func true.
Proof.
  intros self func H. unfold _map. f_equal.
  apply traverse_ext_in. rewrite Forall_forall in *. intros kv Hin.
  specialize (H kv Hin). destruct (snd kv); try reflexivity. discriminate.
Qed.

Lemma map_recurse_flag_without_nesting_witness :
  _map (mkStructured [("a", VInt 1); ("b", VTuple [VInt 2])] [] VNone)
    (fun x => Ok (VList [x])) false
  = _map (mkStructured [("a", VInt 1); ("b", VTuple [VInt 2])] [] VNone)
      (fun x => Ok (VList [x])) true.
Proof.
  apply map_recurse_flag_without_nesting. repeat constructor.
Defined.

Lemma length_map_values {V W} (f : V -> W) (d : list (string * V)) :
  List.length (Dict.map_values f d) = List.length d.
Proof.
  induction d as [|[k v] rest IH]; simpl; [reflexivity | now rewrite IH].
Qed.

Lemma py_eq_map_identity v :
  well_keyed v = true ->
  py_eq v (map_leaves (fun x => x) v) = true
  /\ py_eq (map_leaves (fun x => x) v) v = true.
Proof.
  induction v as [ | z | s | l IH | l IH | l IH | d IH | cur IH IHa IHm ]
    using value_nested_ind; intros Hw;
    try (cbn [map_leaves]; split; now apply py_eq_refl).
  - cbn [map_leaves]. rewrite map_id. split; now apply py_eq_refl.
  - pose proof (proj1 (well_keyed_Structured cur) Hw) as [Hnd Hv].
    rewrite Forall_forall in IH, Hv.
    assert (Hnd' : NoDup (Dict.keys (Dict.map_values (map_leaves (fun x => x))
                                       (_structure cur))))
      by now rewrite keys_map_values.
    cbn [map_leaves py_eq _structure]. split; apply eqb_with_intro.
    + now rewrite length_root_last, length_map_values.
    + intros k v Hin. rewrite get_root_last, get_map_values.
      rewrite (in_get_unique _ _ _ Hnd Hin). cbn [option_map].
      eexists. split; [reflexivity|].
      apply (IH _ Hin). apply (Hv _ Hin).
    + now rewrite length_root_last, length_map_values.
    + intros k w Hin. apply in_root_last, in_map_values in Hin.
      destruct Hin as [v [Hin Hwv]]. cbn [fst snd] in Hin, Hwv. subst w.
      exists v. split; [now apply in_get_unique|].
      apply (IH _ Hin). apply (Hv _ Hin).
Qed.

(** Mapping the identity gives a container equal to the original, in both
    directions. *)
Theorem map_identity :
  forall self : Structured,
    constructible (VStructured self) = true ->
    well_keyed (VStructured self) = true ->
    exists c,
      _map self (fun x => Ok x) true = Ok c
      /\ __eq__ self (VStructured c) = true
      /\ __eq__ c (VStructured self) = true.
Proof.
  intros self Hc Hw. rewrite (map_pure self (fun x => x) Hc).
  eexists. split; [reflexivity|].
  destruct (py_eq_map_identity (VStructured self) Hw) as [H1 H2].
  cbn [map_leaves py_eq _structure] in H1, H2. unfold __eq__. cbn [_structure].
  now split.
Qed.

Lemma map_identity_witness :
  exists c,
    _map (mkStructured
            [("root", VTuple [VInt 1]);
             ("n", VStructured (mkStructured [("root", VInt 2); ("x", VInt 3)]
                                  [] VNone))] [] VNone)
      (fun x => Ok x) true = Ok c
    /\ __eq__ (mkStructured
                 [("root", VTuple [VInt 1]);
                  ("n", VStructured (mkStructured [("root", VInt 2); ("x", VInt 3)]
                                       [] VNone))] [] VNone)
         (VStructured c) = true
    /\ __eq__ c
         (VStructured
            (mkStructured
               [("root", VTuple [VInt 1]);
                ("n", VStructured (mkStructured [("root", VInt 2); ("x", VInt 3)]
                                     [] VNone))] [] VNone)) = true.
Proof.
  apply map_identity; reflexivity.
Defined.

(** ** More on simplification *)

Lemma simplify_from_keeps_self recurse unwrap self v :
  snd (simplify_from recurse unwrap false self v) = self.
Proof.
  induction v as [ | z | s | l IH | l IH | l IH | d IH | cur IH IHa IHm ]
    using value_nested_ind; try reflexivity.
  cbn [simplify_from]. destruct (simplify_guard unwrap cur) eqn:G.
  - destruct (simplify_guard_step _ _ G) as [root [Hroot _]].
    rewrite get_with_get, Hroot. cbn [option_map].
    slot_hypothesis IH Hroot. exact IH.
  - match goal with
    | |- snd (match ?t with _ => _ end) = _ => destruct t
    end; reflexivity.
Qed.

Lemma new_like_meta (self c : Structured) structure :
  new_like self structure = Ok c ->
  _mapped_attrs c = _mapped_attrs self /\ _metadata c = _metadata self.
Proof.
  unfold new_like.
  destruct (Dict.contains "_mapped_attrs" structure
            || Dict.contains "_metadata" structure); [discriminate|].
  unfold new_Structured.
  destruct (Dict.contains "self" _); [discriminate|].
  cbn [Dict.get]. rewrite !String.eqb_refl.
  replace (String.eqb "_mapped_attrs" "_metadata") with false by reflexivity.
  unfold __init__. destruct (existsb _ _); [discriminate|].
  rewrite set_or_empty_set. cbn [bind]. intros H. inversion H. now split.
Qed.

(** With [unwrap=False], [_simplify] never returns a bare payload: what it
    returns is a container, with the mapped attributes and the metadata of
    [self]. *)
Theorem simplify_without_unwrap_returns_container :
  forall (self : Structured) (recurse inplace : bool) (out : value),
    fst (_simplify self recurse false inplace) = Ok out ->
    exists c,
      out = VStructured c
      /\ _mapped_attrs c = _mapped_attrs self
      /\ _metadata c = _metadata self.
Proof.
  intros self recurse inplace out. unfold _simplify. rewrite andb_false_r.
  generalize (VStructured self) (eq_refl : isinstance_Structured (VStructured self) = true).
  intros v. revert out.
  induction v as [ | z | s | l IH | l IH | l IH | d IH | cur IH IHa IHm ]
    using value_nested_ind; intros out Hv H; try discriminate Hv.
  cbn [simplify_from] in H. destruct (simplify_guard false cur) eqn:G.
  - destruct (simplify_guard_step _ _ G) as [root [Hroot Hstep]].
    rewrite get_with_get, Hroot in H. cbn [option_map] in H.
    slot_hypothesis IH Hroot. apply IH; [|exact H].
    inversion Hstep as [? ? _ _ [Hu|Hu] Hr]; subst; [discriminate|].
    rewrite Hroot in Hr. now inversion Hr; subst.
  - match type of H with
    | fst (match ?t with _ => _ end) = _ => destruct t as [structure|e]
    end; [|discriminate H].
    destruct inplace; cbn [fst] in H.
    + inversion H. eexists. split; [reflexivity|]. now split.
    + destruct (new_like self structure) as [c|e] eqn:E; [|discriminate H].
      inversion H. exists c. split; [reflexivity|].
      now apply new_like_meta with (structure := structure).
Qed.

Lemma simplify_without_unwrap_returns_container_witness :
  exists c,
    VStructured (mkStructured [("root", VInt 5)] [VStr "a"] (VInt 1))
    = VStructured c
    /\ _mapped_attrs c = [VStr "a"] /\ _metadata c = VInt 1.
Proof.
  apply (simplify_without_unwrap_returns_container
           (mkStructured
              [("root", VStructured (mkStructured [("root", VInt 5)] [] VNone))]
              [VStr "a"] (VInt 1)) true false).
  reflexivity.
Defined.

(** Without [inplace], [_simplify] leaves [self] as it was, whatever it
    returns.  With [inplace] (and so [unwrap=False]) a call that returns,
    returns [self] in its new state, which has the mapped attributes and
    the metadata it had; a call that raises leaves [self] as it was. *)
Theorem simplify_effect_on_self :
  forall (self : Structured) (recurse unwrap : bool),
    snd (_simplify self recurse unwrap false) = self
    /\ (forall out,
           fst (_simplify self recurse false true) = Ok out ->
           out = VStructured (snd (_simplify self recurse false true))
           /\ _mapped_attrs (snd (_simplify self recurse false true))
              = _mapped_attrs self
           /\ _metadata (snd (_simplify self recurse false true))
              = _metadata self)
    /\ (forall e,
           fst (_simplify self recurse false true) = Raise e ->
           snd (_simplify self recurse false true) = self).
Proof.
  intros self recurse unwrap. split.
  - unfold _simplify. cbn [andb]. apply simplify_from_keeps_self.
  - unfold _simplify. cbn [andb].
    generalize (VStructured self)
      (eq_refl : isinstance_Structured (VStructured self) = true).
    intros v.
    induction v as [ | z | s | l IH | l IH | l IH | d IH | cur IH IHa IHm ]
      using value_nested_ind; intros Hv; try discriminate Hv.
    cbn [simplify_from]. destruct (simplify_guard false cur) eqn:G.
    + destruct (simplify_guard_step _ _ G) as [root [Hroot Hstep]].
      rewrite get_with_get, Hroot. cbn [option_map].
      slot_hypothesis IH Hroot. apply IH.
      inversion Hstep as [? ? _ _ [Hu|Hu] Hr]; subst; [discriminate|].
      rewrite Hroot in Hr. now inversion Hr; subst.
    + match goal with
      | |- context [match ?t with Ok _ => _ | Raise _ => _ end] =>
          destruct t as [structure|e0]
      end; cbn [fst snd].
      * split; [|intros e H; discriminate H].
        intros out H. inversion H. now repeat split.
      * split; [intros out H; discriminate H | reflexivity].
Qed.

Lemma simplify_effect_on_self_witness :
  let self := mkStructured
                [("a", VStructured (mkStructured [("root", VInt 5)] [] VNone))]
                [VStr "x"] VNone in
  fst (_simplify self true false true)
  = Ok (VStructured (snd (_simplify self true false true)))
  /\ _structure (snd (_simplify self true false true)) = [("a", VInt 5)].
Proof.
  intros self. split; [|reflexivity].
  destruct (proj1 (proj2 (simplify_effect_on_self self true false))
              (VStructured (mkStructured [("a", VInt 5)] [VStr "x"] VNone))
              eq_refl) as [H _].
  now rewrite <- H.
Defined.

Lemma simplified_Structured (s : Structured) :
  simplified (VStructured s) = true <->
  _has_root s && negb (_has_structure s) = false
  /\ Forall (fun kv => simplified (snd kv) = true) (_structure s).
Proof.
  cbn [simplified]. rewrite andb_true_iff, negb_true_iff.
  apply and_iff_compat_l.
  induction (_structure s) as [|[k v] rest IH].
  - split; [constructor | reflexivity].
  - rewrite andb_true_iff, IH. split.
    + intros [Hv Hr]. now constructor.
    + intros H. inversion H; subst. now split.
Qed.

Lemma traverse_in {V W} (f : V -> result W) (d : list (string * V)) d' k w :
  Dict.traverse f d = Ok d' -> In (k, w) d' ->
  exists v, In (k, v) d /\ f v = Ok w.
Proof.
  revert d'. induction d as [|[k0 v0] rest IH]; simpl; intros d' H Hin.
  - inversion H; subst. contradiction.
  - destruct (f v0) as [w0|e] eqn:Ef; simpl in H; [|discriminate].
    destruct (Dict.traverse f rest) as [ws|e]; simpl in H; [|discriminate].
    inversion H; subst. destruct Hin as [E|Hin].
    + inversion E; subst. exists v0. split; [now left | assumption].
    + destruct (IH _ eq_refl Hin) as [v [Hv Hf]]. exists v. split; [now right | assumption].
Qed.

Lemma traverse_fixed {V} (f : V -> result V) (d : list (string * V)) :
  Forall (fun kv => f (snd kv) = Ok (snd kv)) d -> Dict.traverse f d = Ok d.
Proof.
  induction 1 as [|[k v] rest Hx _ IH]; simpl; [reflexivity|].
  simpl in Hx. now rewrite Hx, IH.
Qed.

Lemma simplify_guard_unwrap (s : Structured) :
  simplify_guard true s = _has_root s && negb (_has_structure s).
Proof. unfold simplify_guard. cbn [orb]. apply andb_true_r. Qed.

(** What [_simplify()] returns on a constructible value is simplified and
    is returned again by [_simplify()] on it. *)
Lemma simplify_fixed v :
  constructible v = true ->
  forall self out,
    fst (simplify_from true true false self v) = Ok out ->
    simplified out = true
    /\ forall c, out = VStructured c ->
                 fst (simplify_from true true false c out) = Ok out.
Proof.
  induction v as [ | z | s | l IH | l IH | l IH | d IH | cur IH IHa IHm ]
    using value_nested_ind; intros Hc self out H.
  1-7: (cbn in H; inversion H; subst; split;
        [reflexivity | intros c E; discriminate E]).
  pose proof (proj1 (constructible_slots cur) Hc) as [Hkw Hslots].
  rewrite Forall_forall in IH, Hslots.
  cbn [simplify_from] in H. destruct (simplify_guard true cur) eqn:G.
  - destruct (simplify_guard_step _ _ G) as [root [Hroot _]].
    rewrite get_with_get, Hroot in H. cbn [option_map] in H.
    pose proof (get_in _ _ _ Hroot) as Hin.
    exact (IH _ Hin (Hslots _ Hin) self out H).
  - set (F := fun x => match x with
                       | VStructured nested =>
                           fst (simplify_from true true false nested x)
                       | _ => Ok x
                       end) in *.
    destruct (Dict.traverse F (_structure cur)) as [st'|e] eqn:E;
      [|discriminate H].
    pose proof (traverse_keys _ _ _ E) as Hkeys.
    assert (Hkw' : forallb keyword_name (Dict.keys st') = true)
      by now rewrite Hkeys.
    rewrite (new_like_ok self st' Hkw') in H. cbn in H. inversion H; subst out.
    clear H.
    assert (Hvals : forall k w, In (k, w) (root_last st') ->
              simplified w = true /\ F w = Ok w).
    { intros k w Hin. apply in_root_last in Hin.
      destruct (traverse_in _ _ _ _ _ E Hin) as [v [Hv Hf]].
      specialize (IH _ Hv (Hslots _ Hv)). cbn [snd] in IH.
      unfold F in Hf. destruct v;
        try (inversion Hf; subst; split; reflexivity).
      destruct (IH s w Hf) as [Hs Hfix]. split; [assumption|].
      unfold F. destruct w; try reflexivity. now apply Hfix. }
    destruct (flags_root_last st' (_mapped_attrs self) (_metadata self) [] VNone)
      as [Hr Hs].
    destruct (flags_same_keys (mkStructured st' [] VNone) cur Hkeys) as [Hr' Hs'].
    rewrite simplify_guard_unwrap in G.
    assert (G' : _has_root (mkStructured (root_last st') (_mapped_attrs self)
                              (_metadata self))
                 && negb (_has_structure
                            (mkStructured (root_last st') (_mapped_attrs self)
                               (_metadata self))) = false)
      by now rewrite Hr, Hs, Hr', Hs'.
    split.
    + apply simplified_Structured. split; [exact G'|].
      cbn [_structure]. apply Forall_forall. intros [k w] Hin.
      now apply (Hvals k w).
    + intros c Ec. inversion Ec; subst c. clear Ec.
      cbn [simplify_from]. rewrite simplify_guard_unwrap, G'.
      fold F. cbn [_structure].
      rewrite traverse_fixed
        by (apply Forall_forall; intros [k w] Hin; now apply (Hvals k w)).
      rewrite new_like_ok by now apply keyword_names_root_last.
      cbn [_mapped_attrs _metadata fmap bind fst].
      now rewrite root_last_idempotent.
Qed.

(** After [_simplify()] nothing is left to simplify: the result is not a
    container with a root and no other structure, and neither is anything
    in its slots, at any depth. *)
Theorem simplify_leaves_no_lone_root :
  forall (self : Structured) (out : value),
    constructible (VStructured self) = true ->
    fst (_simplify self true true false) = Ok out ->
    simplified out = true.
Proof.
  intros self out Hc H. unfold _simplify in H. cbn [andb] in H.
  exact (proj1 (simplify_fixed (VStructured self) Hc self out H)).
Qed.

Lemma simplify_leaves_no_lone_root_witness :
  simplified
    (VStructured (mkStructured [("a", VInt 5); ("root", VInt 1)] [] VNone)) = true.
Proof.
  apply (simplify_leaves_no_lone_root
           (mkStructured
              [("root", VStructured
                          (mkStructured
                             [("root", VInt 1);
                              ("a", VStructured
                                      (mkStructured [("root", VInt 5)] [] VNone))]
                             [] VNone))] [] VNone));
    reflexivity.
Defined.

(** [_simplify()] is idempotent: a container it returns is returned
    unchanged by [_simplify()] on it. *)
Theorem simplify_idempotent :
  forall (self c : Structured),
    constructible (VStructured self) = true ->
    fst (_simplify self true true false) = Ok (VStructured c) ->
    fst (_simplify c true true false) = Ok (VStructured c).
Proof.
  intros self c Hc H. unfold _simplify in *. cbn [andb] in *.
  exact (proj2 (simplify_fixed (VStructured self) Hc self _ H) c eq_refl).
Qed.

Lemma simplify_idempotent_witness :
  fst (_simplify (mkStructured [("a", VInt 5); ("root", VInt 1)] [] VNone)
         true true false)
  = Ok (VStructured (mkStructured [("a", VInt 5); ("root", VInt 1)] [] VNone)).
Proof.
  apply (simplify_idempotent
           (mkStructured
              [("root", VInt 1);
               ("a", VStructured (mkStructured [("root", VInt 5)] [] VNone))]
              [] VNone));
    reflexivity.
Defined.

(** A constructor call at the end of [_simplify] that returns was given
    keyword names, and stored them root last. *)
Lemma new_like_keyword_names (self c : Structured) structure :
  new_like self structure = Ok c ->
  forallb keyword_name (Dict.keys structure) = true.
Proof.
  intros H. apply forallb_forall. intros k Hin.
  unfold new_like in H.
  destruct (Dict.contains "_mapped_attrs" structure) eqn:Ema; [discriminate|].
  destruct (Dict.contains "_metadata" structure) eqn:Emd; [discriminate|].
  cbn [orb] in H.
  set (kwargs := ("_mapped_attrs", VSet (_mapped_attrs self))
                   :: ("_metadata", _metadata self) :: structure) in H.
  destruct (Dict.contains "self" kwargs) eqn:Eself;
    [unfold new_Structured in H; rewrite Eself in H; discriminate|].
  unfold keyword_name. apply andb_true_iff. split; apply negb_true_iff.
  - destruct (startswith_underscore k) eqn:Hu; [|reflexivity].
    rewrite (new_Structured_underscore kwargs k) in H; try assumption;
      try discriminate.
    + right. right. exact Hin.
    + intros ->. apply contains_in in Hin. congruence.
    + intros ->. apply contains_in in Hin. congruence.
  - destruct (String.eqb_spec k "self") as [->|Hne]; [|reflexivity].
    assert (Dict.contains "self" kwargs = true).
    { apply contains_in. right. right. exact Hin. }
    congruence.
Qed.

Lemma new_like_inv (self c : Structured) structure :
  new_like self structure = Ok c ->
  c = mkStructured (root_last structure) (_mapped_attrs self) (_metadata self).
Proof.
  intros H. pose proof (new_like_keyword_names self c structure H) as Hkw.
  rewrite (new_like_ok self structure Hkw) in H. now inversion H.
Qed.

(** ** Bracket read and simplification *)

Lemma getitem_through_walk v key :
  py_getitem v key = py_getitem (simplify_walk true v) key.
Proof.
  induction v as [ | z | s | l IH | l IH | l IH | d IH | cur IH IHa IHm ]
    using value_nested_ind; try reflexivity.
  cbn [simplify_walk]. rewrite simplify_guard_unwrap.
  destruct (_has_root cur && negb (_has_structure cur)) eqn:G; [|reflexivity].
  cbn [py_getitem]. rewrite G, !get_with_get.
  destruct (Dict.get "root" (_structure cur)) as [root|] eqn:Hroot.
  - cbn [option_map]. slot_hypothesis IH Hroot. exact IH.
  - apply andb_true_iff in G. destruct G as [G _].
    unfold _has_root, Dict.contains in G. rewrite Hroot in G. discriminate.
Qed.

Lemma constructible_walk unwrap v :
  constructible v = true -> constructible (simplify_walk unwrap v) = true.
Proof.
  induction v as [ | z | s | l IH | l IH | l IH | d IH | cur IH IHa IHm ]
    using value_nested_ind; intros Hc; try reflexivity.
  cbn [simplify_walk]. destruct (simplify_guard unwrap cur) eqn:G; [|exact Hc].
  destruct (simplify_guard_step _ _ G) as [root [Hroot _]].
  rewrite get_with_get, Hroot. cbn [option_map].
  apply constructible_slots in Hc. destruct Hc as [_ Hslots].
  rewrite Forall_forall in Hslots.
  pose proof (Hslots _ (get_in _ _ _ Hroot)) as Hr.
  slot_hypothesis IH Hroot. now apply IH.
Qed.

Lemma getitem_root_last (cur : Structured) attrs md key :
  py_getitem (VStructured (mkStructured (root_last (_structure cur)) attrs md)) key
  = py_getitem (VStructured cur) key.
Proof.
  destruct cur as [d a m]. cbn [_structure].
  destruct (flags_root_last d attrs md a m) as [Hr Hs].
  cbn [py_getitem]. rewrite Hr, Hs. cbn [_structure].
  rewrite !get_with_get, !get_root_last.
  destruct key; try reflexivity. now rewrite get_root_last.
Qed.

(** Bracket read sees through simplification: whenever
    [_simplify(recurse=False)] returns, indexing what it returns gives
    what indexing the container gives, value or exception.  It returns
    whenever the loop ends on a payload or on a container whose slot
    names are keyword names. *)
Theorem getitem_after_simplify :
  forall (self : Structured) (key : value),
    (forall out,
        fst (_simplify self false true false) = Ok out ->
        py_getitem out key = __getitem__ self key)
    /\ ((forall cur,
            simplify_walk true (VStructured self) = VStructured cur ->
            forallb keyword_name (Dict.keys (_structure cur)) = true) ->
        exists out, fst (_simplify self false true false) = Ok out).
Proof.
  intros self key. unfold _simplify, __getitem__. cbn [andb].
  rewrite simplify_from_walk, (getitem_through_walk (VStructured self) key).
  pose proof (simplify_walk_stuck true (VStructured self)) as Hstuck.
  destruct (simplify_walk true (VStructured self)) as [ | | | | | | |cur] eqn:E;
    try (split; [intros out H; cbn in H; inversion H; reflexivity
                | intros _; eexists; reflexivity]).
  assert (G : simplify_guard true cur = false).
  { destruct (simplify_guard true cur) eqn:G; [|reflexivity].
    destruct (simplify_guard_step _ _ G) as [root [_ Hstep]].
    exfalso. exact (Hstuck root Hstep). }
  cbn [simplify_from]. rewrite G. cbn [fst]. split.
  - intros out H.
    destruct (new_like self (_structure cur)) as [c|e] eqn:N; [|discriminate H].
    cbn in H. inversion H; subst out.
    rewrite (new_like_inv self c _ N). apply getitem_root_last.
  - intros Hkw. rewrite (new_like_ok self _ (Hkw cur eq_refl)).
    eexists. reflexivity.
Qed.

Lemma getitem_after_simplify_witness :
  let self :=
    mkStructured
      [("root", VStructured
                  (mkStructured
                     [("root", VTuple [VInt 7; VInt 8]);
                      ("n", VStructured (mkStructured [("self", VInt 1)] [] VNone))]
                     [] VNone))] [] VNone in
  exists out,
    fst (_simplify self false true false) = Ok out
    /\ py_getitem out (VStr "root") = __getitem__ self (VStr "root").
Proof.
  intros self.
  destruct (proj2 (getitem_after_simplify self (VStr "root"))) as [out Hout].
  - intros cur E. inversion E. reflexivity.
  - exists out. split; [exact Hout|].
    exact (proj1 (getitem_after_simplify self (VStr "root")) out Hout).
Defined.

(** ** Composing updates *)

Lemma set_set_present {V} k k' (v v' : V) (d : list (string * V)) :
  In k (Dict.keys d) -> k <> k' ->
  Dict.set k v (Dict.set k' v' d) = Dict.set k' v' (Dict.set k v d).
Proof.
  induction d as [|[k0 v0] rest IH]; simpl; intros Hin Hne; [contradiction|].
  destruct (String.eqb_spec k0 k') as [->|Hne'].
  - destruct (String.eqb_spec k' k) as [->|_]; [congruence|]. simpl.
    rewrite String.eqb_refl.
    destruct (String.eqb_spec k' k); [congruence|].
    f_equal.
  - destruct (String.eqb_spec k0 k) as [->|Hne''].
    + simpl. rewrite String.eqb_refl.
      destruct (String.eqb_spec k k'); [congruence | reflexivity].
    + simpl. destruct (String.eqb_spec k0 k); [congruence|].
      destruct (String.eqb_spec k0 k'); [congruence|].
      f_equal. apply IH; [|assumption].
      destruct Hin as [E|Hin]; [simpl in E; congruence | assumption].
Qed.

Lemma set_set_same {V} k (v v' : V) (d : list (string * V)) :
  Dict.set k v (Dict.set k v' d) = Dict.set k v d.
Proof.
  induction d as [|[k0 v0] rest IH]; simpl.
  - now rewrite String.eqb_refl.
  - destruct (String.eqb_spec k0 k) as [->|Hne]; simpl.
    + now rewrite String.eqb_refl.
    + destruct (String.eqb_spec k0 k); [congruence|]. now rewrite IH.
Qed.

Lemma set_after_update {V} k (v : V) (d e : list (string * V)) :
  In k (Dict.keys d) -> ~ In k (Dict.keys e) ->
  Dict.set k v (Dict.update d e) = Dict.update (Dict.set k v d) e.
Proof.
  unfold Dict.update. revert d.
  induction e as [|[k0 v0] rest IH]; simpl; intros d Hin Hnot; [reflexivity|].
  rewrite IH.
  - f_equal. apply set_set_present; [assumption|]. intros ->. apply Hnot. now left.
  - apply keys_set_in. now left.
  - intros H. apply Hnot. now right.
Qed.

Lemma update_set {V} k (v : V) (d e : list (string * V)) :
  NoDup (Dict.keys e) ->
  Dict.update d (Dict.set k v e) = Dict.set k v (Dict.update d e).
Proof.
  revert d. induction e as [|[k0 v0] rest IH]; intros d Hnd; [reflexivity|].
  inversion Hnd as [|? ? Hnot Hrest]; subst. cbn [Dict.set].
  destruct (String.eqb_spec k0 k) as [->|Hne].
  - unfold Dict.update. cbn [fold_left fst snd].
    fold (Dict.update (Dict.set k v d) rest).
    fold (Dict.update (Dict.set k v0 d) rest).
    rewrite set_after_update; [now rewrite set_set_same| |assumption].
    apply keys_set_in. now right.
  - unfold Dict.update. cbn [fold_left fst snd].
    fold (Dict.update (Dict.set k0 v0 d) (Dict.set k v rest)).
    fold (Dict.update (Dict.set k0 v0 d) rest).
    now apply IH.
Qed.

Lemma update_assoc {V} (d a b : list (string * V)) :
  NoDup (Dict.keys a) ->
  Dict.update (Dict.update d a) b = Dict.update d (Dict.update a b).
Proof.
  revert a. induction b as [|[k v] rest IH]; intros a Hnd; [reflexivity|].
  unfold Dict.update at 1 4. cbn [fold_left fst snd].
  fold (Dict.update (Dict.set k v (Dict.update d a)) rest).
  fold (Dict.update (Dict.set k v a) rest).
  rewrite <- IH by now apply NoDup_keys_set.
  now rewrite update_set.
Qed.

Lemma remove_set {V} k k' (v : V) (d : list (string * V)) :
  Dict.remove k (Dict.set k' v d) =
  if String.eqb k' k then Dict.remove k d else Dict.set k' v (Dict.remove k d).
Proof.
  induction d as [|[k0 v0] rest IH]; cbn [Dict.set Dict.remove filter fst].
  - destruct (String.eqb k' k); reflexivity.
  - destruct (String.eqb_spec k0 k') as [->|Hne]; cbn [filter fst].
    + destruct (String.eqb_spec k' k) as [->|Hne']; cbn [negb]; [reflexivity|].
      cbn [Dict.set]. now rewrite String.eqb_refl.
    + fold (Dict.remove k (Dict.set k' v rest)). fold (Dict.remove k rest).
      rewrite IH.
      destruct (String.eqb_spec k0 k) as [->|Hne']; cbn [negb].
      * destruct (String.eqb_spec k' k); [congruence | reflexivity].
      * destruct (String.eqb_spec k' k); [reflexivity|].
        cbn [Dict.set]. destruct (String.eqb_spec k0 k'); [congruence | reflexivity].
Qed.

Lemma remove_update {V} k (d e : list (string * V)) :
  Dict.remove k (Dict.update d e) = Dict.update (Dict.remove k d) (Dict.remove k e).
Proof.
  unfold Dict.update. revert d.
  induction e as [|[k0 v0] rest IH]; intros d; [reflexivity|].
  cbn [fold_left fst snd]. rewrite IH, remove_set.
  change (Dict.remove k ((k0, v0) :: rest))
    with (if negb (String.eqb k0 k)
          then (k0, v0) :: Dict.remove k rest else Dict.remove k rest).
  destruct (String.eqb k0 k); reflexivity.
Qed.

Lemma NoDup_keys_update {V} (d e : list (string * V)) :
  NoDup (Dict.keys d) -> NoDup (Dict.keys (Dict.update d e)).
Proof.
  unfold Dict.update. revert d.
  induction e as [|[k v] rest IH]; intros d H; [exact H|].
  apply IH. now apply NoDup_keys_set.
Qed.

Lemma NoDup_keys_root_last (d : list (string * value)) :
  NoDup (Dict.keys d) -> NoDup (Dict.keys (root_last d)).
Proof.
  intros H. unfold Dict.keys. eapply Permutation_NoDup; [|exact H].
  apply Permutation_map. now apply permutation_root_last.
Qed.

Lemma root_last_update_root_last (d e : list (string * value)) :
  NoDup (Dict.keys e) ->
  root_last (Dict.update (root_last d) e) = root_last (Dict.update d e).
Proof.
  intros Hnd. unfold root_last at 1 3.
  rewrite !remove_update, remove_root_last.
  rewrite !get_update by assumption. now rewrite get_root_last.
Qed.

(** Two updates in a row are one update with the second set of
    replacements laid over the first. *)
Theorem update_twice :
  forall (self : Structured) (first second : list (string * value)),
    NoDup (Dict.keys (_structure self)) ->
    forallb keyword_name (Dict.keys (_structure self)) = true ->
    NoDup (Dict.keys first) ->
    forallb keyword_name (Dict.keys first) = true ->
    NoDup (Dict.keys second) ->
    forallb keyword_name (Dict.keys second) = true ->
    exists c,
      (once <- _update self None first ;; _update once None second) = Ok c
      /\ _update self None (Dict.update first second) = Ok c.
Proof.
  intros self first second Hnd Hkw Hnd1 Hkw1 Hnd2 Hkw2.
  assert (Hkeys : forall d e : list (string * value),
             forallb keyword_name (Dict.keys d) = true ->
             forallb keyword_name (Dict.keys e) = true ->
             forallb keyword_name (Dict.keys (Dict.update d e)) = true).
  { intros d e Hd He. rewrite forallb_forall in *. intros x Hx.
    apply keys_update_in in Hx. destruct Hx; auto. }
  rewrite (update_ok self None first Hnd Hkw Hkw1). cbn [bind replacements].
  rewrite update_ok; cbn [_structure _mapped_attrs _metadata replacements].
  - rewrite (update_ok self None _ Hnd Hkw (Hkeys _ _ Hkw1 Hkw2)).
    cbn [replacements]. eexists. split; [reflexivity|].
    now rewrite root_last_update_root_last, update_assoc.
  - now apply NoDup_keys_root_last, NoDup_keys_update.
  - now apply keyword_names_root_last, Hkeys.
  - assumption.
Qed.

Lemma update_twice_witness :
  exists c,
    (once <- _update (mkStructured [("root", VInt 0); ("a", VInt 1)] [] VNone)
               None [("b", VInt 2); ("a", VInt 3)] ;;
     _update once None [("c", VInt 4); ("b", VInt 5)]) = Ok c
    /\ _update (mkStructured [("root", VInt 0); ("a", VInt 1)] [] VNone) None
         (Dict.update [("b", VInt 2); ("a", VInt 3)] [("c", VInt 4); ("b", VInt 5)])
       = Ok c.
Proof.
  apply update_twice; try reflexivity;
    repeat constructor; simpl; intuition discriminate.
Defined.

(** ** Rendering *)

Lemma in_keys_get {V} k (d : list (string * V)) :
  In k (Dict.keys d) -> exists v, Dict.get k d = Some v.
Proof.
  intros Hin. destruct (Dict.get k d) eqn:E; [eauto|].
  apply get_none_not_in in E. contradiction.
Qed.

Lemma mapM_with {A B} (f : A -> result B) (P : A -> B -> Prop) (l : list A) :
  (forall x, In x l -> exists y, f x = Ok y /\ P x y) ->
  exists l', mapM f l = Ok l' /\ Forall2 P l l'.
Proof.
  induction l as [|x l IH]; intros H.
  - exists []. split; [reflexivity | constructor].
  - destruct (H x (or_introl eq_refl)) as [y [Hy HP]].
    destruct IH as [l' [Hl' HF]]; [intros z Hz; apply H; now right|].
    exists (y :: l'). cbn [mapM]. rewrite Hy, Hl'. split; [reflexivity|].
    now constructor.
Qed.

Lemma Forall2_map_eq {A B C} (f : A -> C) (g : B -> C) (l : list A) (l' : list B) :
  Forall2 (fun x y => g y = f x) l l' -> map g l' = map f l.
Proof. induction 1; simpl; [reflexivity | congruence]. Qed.

(** Rendering never raises.  The text is the lines of one block per slot
    joined by line feeds, the block of root first and the others in
    insertion order, and each block opens with its label, [root:] or
    the slot name between a dot and a colon.  [__str__] is the same
    with [str] in place of [repr]. *)
Theorem repr_blocks :
  forall (indent : string -> string -> string) (to_str : value -> string)
         (self : Structured),
    exists blocks,
      __repr__ indent to_str self = Ok (String.concat newline (List.concat blocks))
      /\ __str__ indent to_str self = __repr__ indent to_str self
      /\ map (hd EmptyString) blocks
         = (if _has_root self then ["root:"] else [])
           ++ map (fun k => ("." ++ k ++ ":")%string)
                (filter (fun k => negb (String.eqb k "root"))
                   (Dict.keys (_structure self))).
Proof.
  intros indent to_str self.
  set (label := fun k => if String.eqb k "root" then "root:"
                         else ("." ++ k ++ ":")%string).
  destruct (mapM_with (repr_block indent to_str (_to_dict self false))
              (fun key block => hd EmptyString block = label key)
              (repr_keys self)) as [blocks [Hb HF]].
  { intros key Hin.
    assert (Hget : exists v, Dict.get key (_to_dict self false) = Some v).
    { rewrite to_dict_shallow. unfold repr_keys in Hin.
      rewrite to_dict_shallow in Hin.
      assert (Hf : In key (filter (fun k => negb (String.eqb k "root"))
                             (Dict.keys (_structure self))) ->
                   exists v, Dict.get key (_structure self) = Some v).
      { intros H. apply filter_In in H. apply in_keys_get. now destruct H. }
      destruct (_has_root self) eqn:Hr; [|auto].
      destruct Hin as [<-|Hin]; [|auto]. now apply contains_get. }
    destruct Hget as [v Hv]. unfold repr_block. rewrite Hv. fold (label key).
    destruct v; eexists; (split; [reflexivity|reflexivity]). }
  exists blocks. unfold __str__, __repr__, repr_lines. rewrite Hb.
  split; [reflexivity|]. split; [reflexivity|].
  rewrite (Forall2_map_eq label (hd EmptyString) _ _ HF).
  unfold repr_keys. rewrite to_dict_shallow.
  assert (Hdot : map label (filter (fun k => negb (String.eqb k "root"))
                              (Dict.keys (_structure self)))
                 = map (fun k => ("." ++ k ++ ":")%string)
                     (filter (fun k => negb (String.eqb k "root"))
                        (Dict.keys (_structure self)))).
  { apply map_ext_in. intros k Hk. apply filter_In in Hk. destruct Hk as [_ Hk].
    unfold label. apply negb_true_iff in Hk. now rewrite Hk. }
  destruct (_has_root self); cbn [map app]; now rewrite Hdot.
Qed.

(** ** Exceptions of the traversals *)

Lemma traverse_raises {V W} (f : V -> result W) (d : list (string * V)) e :
  Dict.traverse f d = Raise e -> exists kv, In kv d /\ f (snd kv) = Raise e.
Proof.
  induction d as [|[k v] rest IH]; simpl; [discriminate|].
  destruct (f v) as [w|e'] eqn:Ef; simpl.
  - destruct (Dict.traverse f rest) as [ws|e'']; simpl; [discriminate|].
    intros H. inversion H; subst. destruct (IH eq_refl) as [kv [Hin Hf]].
    exists kv. split; [now right | assumption].
  - intros H. inversion H; subst. exists (k, v). split; [now left | assumption].
Qed.

Lemma mapM_raises {A B} (f : A -> result B) (l : list A) e :
  mapM f l = Raise e -> exists x, In x l /\ f x = Raise e.
Proof.
  induction l as [|x l IH]; simpl; [discriminate|].
  destruct (f x) as [y|e'] eqn:Ef; simpl.
  - destruct (mapM f l) as [ys|e'']; simpl; [discriminate|].
    intros H. inversion H; subst. destruct (IH eq_refl) as [z [Hin Hf]].
    exists z. split; [now right | assumption].
  - intros H. inversion H; subst. exists x. split; [now left | assumption].
Qed.

Lemma apply_func_raises func v e :
  constructible v = true ->
  apply_func func true v = Raise e -> exists x, func x = Raise e.
Proof.
  induction v as [ | z | s | l IH | l IH | l IH | d IH | cur IH IHa IHm ]
    using value_nested_ind; intros Hc H;
    try (cbn [apply_func] in H; eauto; fail).
  - cbn [apply_func] in H.
    destruct (mapM func l) as [l'|e'] eqn:E; [discriminate|].
    cbn in H. inversion H; subst.
    destruct (mapM_raises _ _ _ E) as [x [_ Hx]]. eauto.
  - apply constructible_slots in Hc. destruct Hc as [Hkw Hslots].
    rewrite apply_func_nested in H by assumption.
    destruct (Dict.traverse (apply_func func true) (_structure cur))
      as [kw|e'] eqn:E; [discriminate|].
    cbn in H. inversion H; subst.
    destruct (traverse_raises _ _ _ E) as [kv [Hin Hf]].
    rewrite Forall_forall in IH, Hslots. exact (IH _ Hin (Hslots _ Hin) Hf).
Qed.

(** On a constructible container [_map] raises only what the function
    raises on some object; with a function that raises nothing it
    returns. *)
Theorem map_raises_what_func_raises :
  forall (self : Structured) (func : value -> result value) (e : exn),
    constructible (VStructured self) = true ->
    _map self func true = Raise e ->
    exists x, func x = Raise e.
Proof.
  intros self func e Hc H. apply (apply_func_raises func (VStructured self) e Hc).
  rewrite <- map_as_apply_func, H. reflexivity.
Qed.

Lemma map_raises_what_func_raises_witness :
  exists x,
    (fun y => match y with VInt _ => Ok y | _ => Raise KeyError end) x
    = Raise KeyError.
Proof.
  apply (map_raises_what_func_raises
           (mkStructured [("a", VInt 1); ("b", VTuple [VInt 2; VNone])] [] VNone)
           (fun y => match y with VInt _ => Ok y | _ => Raise KeyError end)
           KeyError); reflexivity.
Defined.

(** On a constructible container [_simplify] without [inplace] raises
    nothing, whatever [recurse] and [unwrap]. *)
Theorem simplify_never_raises :
  forall (self : Structured) (recurse unwrap : bool),
    constructible (VStructured self) = true ->
    exists out, fst (_simplify self recurse unwrap false) = Ok out.
Proof.
  intros self recurse unwrap Hc. unfold _simplify. cbn [andb].
  now apply simplify_from_total.
Qed.

Lemma simplify_never_raises_witness :
  exists out,
    fst (_simplify
           (mkStructured
              [("a", VStructured (mkStructured [("root", VInt 5)] [] VNone))]
              [] VNone) false false false) = Ok out.
Proof.
  apply simplify_never_raises. reflexivity.
Defined.

(** ** What the function is applied to *)

Lemma flat_groups_slots (s : Structured) :
  flat_groups (VStructured s) = true <->
  Forall (fun kv => flat_groups (snd kv) = true) (_structure s).
Proof.
  cbn [flat_groups].
  induction (_structure s) as [|[k v] rest IH].
  - split; [constructor | reflexivity].
  - rewrite andb_true_iff, IH. split.
    + intros [Hv Hr]. now constructor.
    + intros H. inversion H; subst. now split.
Qed.

Lemma mapM_ext_in {A B} (f g : A -> result B) (l : list A) :
  (forall x, In x l -> f x = g x) -> mapM f l = mapM g l.
Proof.
  induction l as [|x l IH]; intros H; [reflexivity|]. cbn [mapM].
  rewrite (H x (or_introl eq_refl)), IH; [reflexivity|].
  intros y Hy. apply H. now right.
Qed.

Lemma apply_func_ext func func' v :
  flat_groups v = true ->
  (forall x, isinstance_Structured x = false -> func x = func' x) ->
  apply_func func true v = apply_func func' true v.
Proof.
  intros Hflat Hext. revert Hflat.
  induction v as [ | z | s | l IH | l IH | l IH | d IH | cur IH IHa IHm ]
    using value_nested_ind; intros Hflat;
    try (cbn [apply_func]; now apply Hext).
  - cbn [apply_func]. f_equal. apply mapM_ext_in. intros x Hx. apply Hext.
    cbn [flat_groups] in Hflat. rewrite forallb_forall in Hflat.
    now apply negb_true_iff, Hflat.
  - cbn [apply_func]. apply flat_groups_slots in Hflat.
    rewrite (traverse_ext_in (apply_func func true) (apply_func func' true));
      [reflexivity|].
    rewrite Forall_forall in *. intros kv Hin. apply (IH _ Hin), (Hflat _ Hin).
Qed.

(** With recursion, [_map] never hands a container to the function,
    provided no stored tuple has a container among its elements: two
    functions that agree on everything that is not a container give the
    same result. *)
Theorem map_func_never_sees_container :
  forall (self : Structured) (func func' : value -> result value),
    flat_groups (VStructured self) = true ->
    (forall x, isinstance_Structured x = false -> func x = func' x) ->
    _map self func true = _map self func' true.
Proof.
  intros self func func' Hflat Hext.
  pose proof (apply_func_ext func func' (VStructured self) Hflat Hext) as H.
  rewrite <- !map_as_apply_func in H.
  destruct (_map self func true), (_map self func' true);
    cbn in H; congruence.
Qed.

Lemma map_func_never_sees_container_witness :
  _map (mkStructured
          [("n", VStructured (mkStructured [("x", VInt 1)] [] VNone));
           ("t", VTuple [VInt 2])] [] VNone)
    (fun x => match x with VStructured _ => Raise TypeError | _ => Ok x end) true
  = _map (mkStructured
            [("n", VStructured (mkStructured [("x", VInt 1)] [] VNone));
             ("t", VTuple [VInt 2])] [] VNone)
      (fun x => Ok x) true.
Proof.
  apply map_func_never_sees_container; [reflexivity|].
  intros x Hx. destruct x; (reflexivity || discriminate).
Defined.

(** [_update()] with no replacement returns a copy: a container equal to
    the original, in both directions, with its mapped attributes and
    metadata. *)
Theorem update_nothing_is_equal_copy :
  forall self : Structured,
    forallb keyword_name (Dict.keys (_structure self)) = true ->
    well_keyed (VStructured self) = true ->
    exists c,
      _update self None [] = Ok c
      /\ __eq__ c (VStructured self) = true
      /\ __eq__ self (VStructured c) = true
      /\ _mapped_attrs c = _mapped_attrs self
      /\ _metadata c = _metadata self.
Proof.
  intros self Hkw Hw.
  apply well_keyed_Structured in Hw. destruct Hw as [Hnd Hv].
  rewrite (update_ok self None [] Hnd Hkw eq_refl).
  eexists. split; [reflexivity|]. cbn [replacements Dict.update fold_left].
  destruct (eqb_with_permuted (_structure self) (root_last (_structure self)))
    as [H1 H2]; try assumption.
  - rewrite Forall_forall in *. intros kv Hin. apply py_eq_refl. auto.
  - now apply permutation_root_last.
  - unfold __eq__. cbn [_structure _mapped_attrs _metadata]. auto.
Qed.

Lemma update_nothing_is_equal_copy_witness :
  exists c,
    _update (mkStructured [("root", VInt 0); ("a", VInt 1)] [VStr "x"] (VInt 7))
      None [] = Ok c
    /\ __eq__ c (VStructured
                   (mkStructured [("root", VInt 0); ("a", VInt 1)]
                      [VStr "x"] (VInt 7))) = true
    /\ __eq__ (mkStructured [("root", VInt 0); ("a", VInt 1)] [VStr "x"] (VInt 7))
         (VStructured c) = true
    /\ _mapped_attrs c = [VStr "x"]
    /\ _metadata c = VInt 7.
Proof.
  apply (update_nothing_is_equal_copy
           (mkStructured [("root", VInt 0); ("a", VInt 1)] [VStr "x"] (VInt 7)));
    reflexivity.
Defined.

(** ** Simplification: what is returned *)

Lemma simplify_from_returns v :
  constructible v = true ->
  forall recurse unwrap inplace self,
    exists out, fst (simplify_from recurse unwrap inplace self v) = Ok out.
Proof.
  induction v as [ | z | s | l IH | l IH | l IH | d IH | cur IH IHa IHm ]
    using value_nested_ind; intros Hc recurse unwrap inplace self.
  1-7: (simpl; now eexists).
  apply constructible_slots in Hc. destruct Hc as [Hkw Hslots].
  cbn [simplify_from].
  destruct (simplify_guard unwrap cur) eqn:G.
  - destruct (simplify_guard_step _ _ G) as [root [Hroot _]].
    rewrite get_with_get, Hroot. cbn [option_map].
    rewrite Forall_forall in Hslots.
    pose proof (Hslots _ (get_in _ _ _ Hroot)) as Hcr.
    slot_hypothesis IH Hroot. now apply IH.
  - destruct recurse.
    + destruct (@traverse_total _ _
                  (fun x => match x with
                            | VStructured nested =>
                                fst (simplify_from true true false nested x)
                            | _ => Ok x
                            end) (_structure cur)) as [structure Hs].
      * rewrite Forall_forall in *. intros kv Hin.
        destruct (snd kv) eqn:E; try (now eexists).
        rewrite <- E. specialize (IH _ Hin). specialize (Hslots _ Hin).
        rewrite E in *. now apply IH.
      * rewrite Hs. destruct inplace; [now eexists|].
        rewrite new_like_ok by now rewrite (traverse_keys _ _ _ Hs).
        now eexists.
    + destruct inplace; [now eexists|].
      rewrite new_like_ok by assumption. now eexists.
Qed.

(** C1.  [_simplify] is its loop followed by the rest of its body.  From
    [self], the loop takes [unwrap_step]s for as long as one applies and
    stops at [simplify_walk].  A loop that ends on something that is not a
    [Structured] returns it.  A loop that ends on a container [cur]
    returns a container with the mapped attributes and metadata of [self]
    and the slots of [cur], not those of [self]: each slot as [cur] holds
    it or, with [recurse], simplified in turn; with [inplace] that
    container is [self] in its new state.  Consequently a container that
    holds only a root [v] that is not a container (such as 5) simplifies
    to [v] itself with [unwrap=True], and with [unwrap=False] to a
    container whose root slot is [v]. *)
Theorem simplify_unwraps_root_chain :
  (forall self recurse unwrap inplace,
      inplace && unwrap = false ->
      let reached := simplify_walk unwrap (VStructured self) in
      clos_refl_trans_1n value (unwrap_step unwrap) (VStructured self) reached
      /\ (forall w, ~ unwrap_step unwrap reached w)
      /\ _simplify self recurse unwrap inplace
         = simplify_from recurse unwrap inplace self reached
      /\ (isinstance_Structured reached = false ->
          _simplify self recurse unwrap inplace = (Ok reached, self)))
  /\ (forall self recurse unwrap inplace cur,
         inplace && unwrap = false ->
         simplify_walk unwrap (VStructured self) = VStructured cur ->
         (forall out,
             fst (_simplify self recurse unwrap inplace) = Ok out ->
             exists c,
               out = VStructured c
               /\ _mapped_attrs c = _mapped_attrs self
               /\ _metadata c = _metadata self
               /\ (inplace = true ->
                   snd (_simplify self recurse unwrap inplace) = c)
               /\ forall k,
                   match Dict.get k (_structure cur) with
                   | None => Dict.get k (_structure c) = None
                   | Some x =>
                       exists y,
                         Dict.get k (_structure c) = Some y
                         /\ if recurse
                            then match x with
                                 | VStructured nested =>
                                     fst (_simplify nested true true false) = Ok y
                                 | _ => y = x
                                 end
                            else y = x
                   end)
         /\ (recurse = false -> inplace = true ->
             _simplify self recurse unwrap inplace
             = (Ok (VStructured (set_structure self (_structure cur))),
                set_structure self (_structure cur)))
         /\ (constructible (VStructured self) = true ->
             exists out, fst (_simplify self recurse unwrap inplace) = Ok out))
  /\ (forall self recurse v,
         _structure self = [("root", v)] ->
         isinstance_Structured v = false ->
         _simplify self recurse true false = (Ok v, self)
         /\ forall inplace,
             exists c, fst (_simplify self recurse false inplace) = Ok (VStructured c)
                       /\ _structure c = [("root", v)]
                       /\ Dict.get "root" (_structure c) = Some v).
Proof.
  split; [|split].
  - intros self recurse unwrap inplace Hflags reached.
    assert (E : _simplify self recurse unwrap inplace
                = simplify_from recurse unwrap inplace self reached).
    { unfold _simplify. rewrite Hflags. apply simplify_from_walk. }
    repeat split.
    + apply simplify_walk_reaches.
    + intros w. apply simplify_walk_stuck.
    + exact E.
    + intros Hleaf. rewrite E. now apply simplify_from_leaf.
  - intros self recurse unwrap inplace cur Hflags Hreach.
    assert (E : _simplify self recurse unwrap inplace
                = simplify_from recurse unwrap inplace self (VStructured cur)).
    { unfold _simplify. rewrite Hflags, simplify_from_walk. now rewrite Hreach. }
    assert (G : simplify_guard unwrap cur = false).
    { destruct (simplify_guard unwrap cur) eqn:G; [|reflexivity].
      destruct (simplify_guard_step _ _ G) as [root [_ Hstep]].
      exfalso. apply (simplify_walk_stuck unwrap (VStructured self) root).
      now rewrite Hreach. }
    split; [|split].
    + rewrite E. cbn [simplify_from]. rewrite G.
      set (F := fun x => match x with
                         | VStructured nested =>
                             fst (simplify_from true true false nested x)
                         | _ => Ok x
                         end).
      intros out H.
      destruct (if recurse then Dict.traverse F (_structure cur)
                else Ok (_structure cur)) as [structure|e] eqn:T;
        [|discriminate H].
      assert (Hl : forall k,
                 match Dict.get k (_structure cur) with
                 | None => Dict.get k structure = None
                 | Some x =>
                     exists y,
                       Dict.get k structure = Some y
                       /\ if recurse
                          then match x with
                               | VStructured nested =>
                                   fst (_simplify nested true true false) = Ok y
                               | _ => y = x
                               end
                          else y = x
                 end).
      { intros k. destruct recurse.
        - pose proof (traverse_get F (_structure cur) structure k T) as Hg.
          destruct (Dict.get k (_structure cur)) as [x|]; [|exact Hg].
          destruct Hg as [y [Hy Hk]]. exists y. split; [exact Hk|].
          unfold F in Hy. destruct x; try (now inversion Hy); exact Hy.
        - inversion T; subst structure.
          destruct (Dict.get k (_structure cur)) as [x|]; [|reflexivity].
          now exists x. }
      destruct inplace; cbn [fst snd] in *.
      * inversion H; subst out. eexists. split; [reflexivity|].
        repeat split. exact Hl.
      * destruct (new_like self structure) as [c|e] eqn:N; [|discriminate H].
        cbn in H. inversion H; subst out.
        pose proof (new_like_inv self c structure N) as Hc. subst c.
        eexists. split; [reflexivity|]. cbn [_structure _mapped_attrs _metadata].
        split; [reflexivity|]. split; [reflexivity|].
        split; [discriminate|].
        intros k. rewrite get_root_last. apply Hl.
    + intros -> ->. rewrite E. cbn [simplify_from]. now rewrite G.
    + intros Hc. unfold _simplify. rewrite Hflags.
      now apply simplify_from_returns.
  - intros self recurse v Hst Hleaf. split.
    + unfold _simplify. cbn [andb simplify_from].
      unfold simplify_guard, _has_root, _has_structure, Dict.contains.
      rewrite Hst. cbn. now apply simplify_from_leaf.
    + intros inplace.
      assert (Hg : simplify_guard false self = false).
      { unfold simplify_guard, root_is_Structured, _has_root, _has_structure,
          Dict.contains. rewrite Hst.
        destruct v; try discriminate Hleaf; reflexivity. }
      assert (Htr : (if recurse
                     then Dict.traverse
                            (fun x => match x with
                                      | VStructured nested =>
                                          fst (simplify_from true true false nested x)
                                      | _ => Ok x
                                      end) (_structure self)
                     else Ok (_structure self)) = Ok [("root", v)]).
      { rewrite Hst. destruct recurse; [|reflexivity].
        destruct v; try reflexivity; discriminate. }
      unfold _simplify. rewrite andb_false_r. cbn [simplify_from].
      rewrite Hg, Htr. destruct inplace.
      * eexists. cbn. split; [reflexivity|]. now split.
      * rewrite new_like_ok by reflexivity.
        eexists. cbn. split; [reflexivity|]. now split.
Qed.

Lemma simplify_unwraps_root_chain_witness :
  let self := mkStructured [("root", VInt 5)] [] VNone in
  let inner := mkStructured [("root", VInt 5); ("b", VInt 6)] [VStr "i"] VNone in
  let outer := mkStructured [("root", VStructured inner)] [VStr "o"] (VInt 1) in
  (_simplify self true true false
   = simplify_from true true false self (simplify_walk true (VStructured self))
   /\ simplify_walk true (VStructured self) = VInt 5)
  /\ (exists c,
         VStructured (mkStructured [("b", VInt 6); ("root", VInt 5)]
                        [VStr "o"] (VInt 1)) = VStructured c
         /\ _mapped_attrs c = _mapped_attrs outer
         /\ _metadata c = _metadata outer
         /\ (false = true -> snd (_simplify outer true false false) = c)
         /\ forall k,
             match Dict.get k (_structure inner) with
             | None => Dict.get k (_structure c) = None
             | Some x =>
                 exists y,
                   Dict.get k (_structure c) = Some y
                   /\ match x with
                      | VStructured nested =>
                          fst (_simplify nested true true false) = Ok y
                      | _ => y = x
                      end
             end)
  /\ _simplify outer false false true
     = (Ok (VStructured (set_structure outer (_structure inner))),
        set_structure outer (_structure inner))
  /\ _simplify self true true false = (Ok (VInt 5), self)
  /\ forall inplace,
      exists c, fst (_simplify self true false inplace) = Ok (VStructured c)
                /\ _structure c = [("root", VInt 5)]
                /\ Dict.get "root" (_structure c) = Some (VInt 5).
Proof.
  intros self inner outer.
  destruct simplify_unwraps_root_chain as [H1 [H2 H3]].
  split; [|split; [|split]].
  - split; [|reflexivity].
    exact (proj1 (proj2 (proj2 (H1 self true true false eq_refl)))).
  - exact (proj1 (H2 outer true false false inner eq_refl eq_refl) _ eq_refl).
  - exact (proj1 (proj2 (H2 outer false false true inner eq_refl eq_refl))
             eq_refl eq_refl).
  - exact (H3 self true (VInt 5) eq_refl eq_refl).
Defined.

(** ** A slot named [self] *)

(** C5, at a container with a slot named [self].  After
    [s = Structured(a=1, _mapped_attrs=("real",))] and [s["self"] = 2],
    the name [real] is no slot and is a mapped attribute, and both leaves
    have the attribute; [s.real] raises [TypeError], because the
    constructor call inside [_map] is given the keyword [self]. *)
Theorem mapped_attribute_fails_with_self_slot :
  exists s,
    (s0 <- __init__ None (VTuple [VStr "real"]) VNone [("a", VInt 1)] ;;
     __setitem__ ascii_isidentifier s0 (VStr "self") (VInt 2)) = Ok s
    /\ _structure s = [("a", VInt 1); ("self", VInt 2)]
    /\ startswith_underscore "real" = false
    /\ Dict.get "real" (_structure s) = None
    /\ In (VStr "real") (_mapped_attrs s)
    /\ int_getattr (VInt 1) "real" = Ok (VInt 1)
    /\ int_getattr (VInt 2) "real" = Ok (VInt 2)
    /\ __getattr__ int_getattr s "real" = Raise TypeError.
Proof.
  eexists. split; [reflexivity|]. cbn [_structure _mapped_attrs].
  repeat split. now left.
Qed.

(** C10, at a container with a slot named [self].  After
    [s = Structured(a=Structured(5))] and [s["self"] = 1], [s] is more
    than a lone root and its slot [a] holds a container whose only slot is
    root = 5; [s._simplify(recurse=True, unwrap=False)] raises
    [TypeError], because the constructor call that builds the result is
    given the keyword [self].  With [inplace=True], where no container is
    built for the result, the slot [a] holds 5 afterwards. *)
Theorem simplify_fails_with_self_slot :
  exists s,
    (s0 <- __init__ None VNone VNone
             [("a", VStructured (mkStructured [("root", VInt 5)] [] VNone))] ;;
     __setitem__ ascii_isidentifier s0 (VStr "self") (VInt 1)) = Ok s
    /\ _has_structure s = true
    /\ Dict.get "a" (_structure s)
       = Some (VStructured (mkStructured [("root", VInt 5)] [] VNone))
    /\ fst (_simplify s true false false) = Raise TypeError
    /\ exists c, fst (_simplify s true false true) = Ok (VStructured c)
                 /\ Dict.get "a" (_structure c) = Some (VInt 5).
Proof.
  eexists. split; [reflexivity|]. repeat split.
  eexists. split; reflexivity.
Qed.

(** ** The constructor call, read back *)

Lemma has_structure_root_last_other (kwargs : list (string * value)) k :
  In k (Dict.keys kwargs) -> k <> "root" ->
  _has_structure (mkStructured (root_last kwargs) [] VNone) = true.
Proof.
  intros Hin Hne. apply has_structure_other_key with (k := k); [|assumption].
  cbn [_structure]. now apply keys_root_last_in.
Qed.

(** Called with keywords, root among them or not, whose names are unique,
    do not start with an underscore and are not [self], the constructor
    returns; every keyword reads back its value by attribute, and by
    bracket as soon as some keyword other than root was supplied (the
    root also by [None]); the length is the number of keywords, and there
    are no mapped attributes or metadata. *)
Theorem constructor_call_read_back :
  forall (getattr : value -> string -> result value)
         (kwargs : list (string * value)),
    forallb keyword_name (Dict.keys kwargs) = true ->
    NoDup (Dict.keys kwargs) ->
    exists s,
      new_Structured kwargs = Ok s
      /\ (forall k v, Dict.get k kwargs = Some v ->
            __getattr__ getattr s k = Ok v
            /\ ((exists k', In k' (Dict.keys kwargs) /\ k' <> "root") ->
                __getitem__ s (VStr k) = Ok v
                /\ (k = "root" -> __getitem__ s VNone = Ok v)))
      /\ __len__ s = List.length kwargs
      /\ _mapped_attrs s = [] /\ _metadata s = VNone.
Proof.
  intros getattr kwargs Hkw Hnd. rewrite (new_Structured_ok kwargs Hkw).
  eexists. split; [reflexivity|].
  split; [|split; [|split; reflexivity]].
  - intros k v Hk.
    assert (Hu : startswith_underscore k = false).
    { rewrite forallb_forall in Hkw.
      pose proof (Hkw k (get_in_keys _ _ _ Hk)) as H.
      unfold keyword_name in H. apply andb_true_iff in H.
      now apply negb_true_iff, H. }
    assert (Hg : Dict.get k (_structure (mkStructured (root_last kwargs) [] VNone))
                 = Some v) by (cbn [_structure]; now rewrite get_root_last).
    split; [now apply getattr_slot|].
    intros [k' [Hin Hne]].
    pose proof (has_structure_root_last_other kwargs k' Hin Hne) as Hs.
    split; [now apply getitem_slot|].
    intros ->. apply getitem_root with (r := v); [assumption | now left | assumption].
  - unfold __len__. cbn [_structure]. now apply length_root_last.
Qed.

Lemma constructor_call_read_back_witness :
  exists s,
    new_Structured [("root", VInt 0); ("a", VInt 1); ("b c", VInt 2)] = Ok s
    /\ __getitem__ s (VStr "b c") = Ok (VInt 2)
    /\ __getitem__ s VNone = Ok (VInt 0)
    /\ __len__ s = 3%nat.
Proof.
  destruct (constructor_call_read_back int_getattr
              [("root", VInt 0); ("a", VInt 1); ("b c", VInt 2)])
    as [s [Hs [Hk [Hl _]]]].
  - reflexivity.
  - repeat constructor; simpl; intuition discriminate.
  - exists s. split; [exact Hs|].
    assert (Hother : exists k', In k' (Dict.keys
                       [("root", VInt 0); ("a", VInt 1); ("b c", VInt 2)])
                     /\ k' <> "root")
      by (exists "a"; split; [simpl; tauto | discriminate]).
    split; [|split].
    + exact (proj1 (proj2 (Hk "b c" (VInt 2) eq_refl) Hother)).
    + exact (proj2 (proj2 (Hk "root" (VInt 0) eq_refl) Hother) eq_refl).
    + exact Hl.
Defined.
